(** * moviepy/tools.py: a shallow embedding and its verified properties

    The module offers three utilities: [subprocess_call] (run an external
    command and raise on a nonzero exit code), [cvsecs] (convert a time given
    as a number, a tuple or a timecode string into seconds) and the registry
    [extensions_dict] with its lookup [find_extension].

    Python values are modelled as the code uses them:
    - [int] is an unbounded integer ([Z]);
    - [float] is an IEEE 754 binary64 number ([spec_float] with precision 53
      and maximal exponent 1024, rounding to nearest even);
    - [str] is a list of characters; the characters are the code points below
      256, on which the class [\d] of [re] is exactly ['0'..'9'];
    - [int(s)] refuses a run of more than 4300 digits, the default limit of
      the interpreter;
    - [bytes] is a list of [Byte.byte];
    - an exception that leaves a function is an outcome [Raise e]. *)

From Stdlib Require Import ZArith List Ascii String Bool Lia Permutation.
From Stdlib Require Import Strings.Byte Floats.
Import ListNotations.

Set Warnings "-inexact-float".
Local Open Scope Z_scope.

(** ** Outcomes: a value or a raised exception *)

(** Text decoded from bytes: a sequence of Unicode code points. *)
Definition text := list N.

Inductive exn : Type :=
| IndexError
| ValueError
| OverflowError
| ZeroDivisionError
| UnboundLocalError
| UnicodeDecodeError
| IOError (msg : text).

Inductive result (A : Type) : Type :=
| Ok (a : A)
| Raise (e : exn).
Arguments Ok {A} a.
Arguments Raise {A} e.

Definition bind {A B : Type} (r : result A) (k : A -> result B) : result B :=
  match r with
  | Ok a => k a
  | Raise e => Raise e
  end.

Notation "x <- r ;; k" := (bind r (fun x => k))
  (at level 61, r at next level, right associativity).

Fixpoint map_result {A B : Type} (f : A -> result B) (l : list A)
  : result (list B) :=
  match l with
  | [] => Ok []
  | a :: l' => b <- f a ;; bs <- map_result f l' ;; Ok (b :: bs)
  end.

(** [l[i]] for a non-negative index: out of range is an [IndexError]. *)
Definition index {A : Type} (l : list A) (i : nat) : result A :=
  match nth_error l i with
  | Some a => Ok a
  | None => Raise IndexError
  end.

(** ** Python numbers *)

Definition float64 : Set := spec_float.

Definition fadd : float64 -> float64 -> float64 := SFadd prec emax.
Definition fmul : float64 -> float64 -> float64 := SFmul prec emax.
Definition fdiv : float64 -> float64 -> float64 := SFdiv prec emax.

(** The binary64 number nearest to an integer (ties to even); an integer
    beyond the range rounds to an infinity. *)
Definition round_int (z : Z) : float64 := binary_normalize prec emax z 0 false.

(** A float literal of the documentation, as binary64. *)
Definition lit (x : PrimFloat.float) : float64 := Prim2SF x.

Inductive num : Type :=
| PyInt (z : Z)
| PyFloat (f : float64).

(** Conversion of an [int] operand in mixed arithmetic
    ("int too large to convert to float"). *)
Definition int_to_float (z : Z) : result float64 :=
  match round_int z with
  | S754_infinity _ => Raise OverflowError
  | f => Ok f
  end.

Definition as_float (a : num) : result float64 :=
  match a with
  | PyInt z => int_to_float z
  | PyFloat f => Ok f
  end.

(** [a * b] *)
Definition py_mul (a b : num) : result num :=
  match a, b with
  | PyInt x, PyInt y => Ok (PyInt (x * y))
  | _, _ => x <- as_float a ;; y <- as_float b ;; Ok (PyFloat (fmul x y))
  end.

(** [a + b] *)
Definition py_add (a b : num) : result num :=
  match a, b with
  | PyInt x, PyInt y => Ok (PyInt (x + y))
  | _, _ => x <- as_float a ;; y <- as_float b ;; Ok (PyFloat (fadd x y))
  end.

Definition is_zero (f : float64) : bool :=
  match f with
  | S754_zero _ => true
  | _ => false
  end.

(** [x / b] for a float [x]: the divisor is converted to a float; a zero
    divisor is a [ZeroDivisionError]. *)
Definition float_truediv (x : float64) (b : num) : result num :=
  y <- as_float b ;;
  if is_zero y then Raise ZeroDivisionError else Ok (PyFloat (fdiv x y)).

(** [a >= 0] *)
Definition ge_zero (a : num) : bool :=
  match a with
  | PyInt z => 0 <=? z
  | PyFloat f => SFleb (S754_zero false) f
  end.

(** ** Strings *)

Definition str (s : string) : list ascii := list_ascii_of_string s.

Definition is_digit (c : ascii) : bool :=
  let n := nat_of_ascii c in (48 <=? n)%nat && (n <=? 57)%nat.

Definition digit_value (c : ascii) : Z := Z.of_nat (nat_of_ascii c) - 48.

Fixpoint decimal_value (acc : Z) (s : list ascii) : Z :=
  match s with
  | [] => acc
  | c :: s' => decimal_value (10 * acc + digit_value c) s'
  end.

Definition all_digits (s : list ascii) : bool :=
  match s with
  | [] => false
  | _ => forallb is_digit s
  end.

(** The longest run of digits that [int] converts
    ([sys.get_int_max_str_digits()], 4300 by default); leading zeros count. *)
Definition int_max_str_digits : nat := 4300.

(** [int(s)] on a run of decimal digits, which is all the matcher hands to
    it: the value, or a [ValueError] when the run has more digits than
    [int] converts; anything else is reported as a [ValueError] too. *)
Definition py_int (s : list ascii) : result Z :=
  if all_digits s then
    if (List.length s <=? int_max_str_digits)%nat then Ok (decimal_value 0 s)
    else Raise ValueError
  else Raise ValueError.

(** [float(s)] on a run of decimal digits: the nearest binary64 number, an
    infinity when the digits exceed the range (no exception). *)
Definition py_float (s : list ascii) : result float64 :=
  if all_digits s then Ok (round_int (decimal_value 0 s)) else Raise ValueError.

(** [c in s] *)
Definition contains (c : ascii) (s : list ascii) : bool :=
  existsb (Ascii.eqb c) s.

(** ** The fragment of [re] that the timecode pattern uses

    A pattern is a sequence of items: a character class matching one
    character, or a capturing group [(c+)] of one or more characters of a
    class, greedy and backtracking as in [re]. *)

Inductive re_item : Type :=
| Chr (c : ascii -> bool)
| GroupPlus (c : ascii -> bool).

Definition pattern := list re_item.

(** A greedy group [(c+)] followed by the rest of the pattern [k]: it takes
    as many characters of the class as it can and gives them back one by one
    until the rest of the pattern matches. *)
Fixpoint group_plus {R : Type} (c : ascii -> bool)
    (k : list ascii -> option R) (s : list ascii) : option (list ascii * R) :=
  match s with
  | [] => None
  | a :: s' =>
      if c a then
        match group_plus c k s' with
        | Some (g, r) => Some (a :: g, r)
        | None =>
            match k s' with
            | Some r => Some ([a], r)
            | None => None
            end
        end
      else None
  end.

(** [match_here p s]: the match of [p] at the start of [s] that [re]
    finds, as the captured groups and the text left after the match. *)
Fixpoint match_here (p : pattern) (s : list ascii)
  : option (list (list ascii) * list ascii) :=
  match p with
  | [] => Some ([], s)
  | Chr c :: p' =>
      match s with
      | a :: s' => if c a then match_here p' s' else None
      | [] => None
      end
  | GroupPlus c :: p' =>
      match group_plus c (match_here p') s with
      | Some (g, (gs, rest)) => Some (g :: gs, rest)
      | None => None
      end
  end.

(** [re.findall(p, s)]: the groups of every match, scanning left to right;
    after a match the scan resumes where the match ended (one character
    further after an empty match). [skip] counts the characters of the last
    match that are still to be passed. *)
Fixpoint findall_from (p : pattern) (skip : nat) (s : list ascii) {struct s}
  : list (list (list ascii)) :=
  match skip with
  | S k =>
      match s with
      | [] => []
      | _ :: s' => findall_from p k s'
      end
  | O =>
      match match_here p s with
      | Some (gs, rest) =>
          gs :: match s with
                | [] => []
                | _ :: s' =>
                    findall_from p (Nat.pred (List.length s - List.length rest)) s'
                end
      | None =>
          match s with
          | [] => []
          | _ :: s' => findall_from p 0 s'
          end
      end
  end.

Definition findall (p : pattern) (s : list ascii) : list (list (list ascii)) :=
  findall_from p 0 s.

(** ** cvsecs *)

Definition is_colon (c : ascii) : bool := Ascii.eqb c ":".

(** The class [[,|.]] of the pattern: a comma, a vertical bar or a dot. *)
Definition is_sep (c : ascii) : bool :=
  Ascii.eqb c "," || Ascii.eqb c "|" || Ascii.eqb c ".".

(** [expr = r"(\d+):(\d+):(\d+)[,|.](\d+)"] *)
Definition expr : pattern :=
  [GroupPlus is_digit; Chr is_colon; GroupPlus is_digit; Chr is_colon;
   GroupPlus is_digit; Chr is_sep; GroupPlus is_digit].

(** The values [cvsecs] is called with. The components of a tuple are
    numbers, as in the documented formats [(min, sec)] and [(hr, min, sec)]. *)
Inductive pyval : Type :=
| PyStr (s : list ascii)
| PyTuple (items : list num)
| PyNum (n : num)
| PyBytes (b : list byte)
| PyNone.

Definition is_string (obj : pyval) : bool :=
  match obj with
  | PyStr _ => true
  | _ => false
  end.

(** The first step of the string branch: ['.0'] is appended when the text
    has neither a comma nor a dot. *)
Definition add_fraction (time : list ascii) : list ascii :=
  if negb (contains "," time) && negb (contains "." time)
  then time ++ str ".0" else time.

(** The branch [if is_string(time)]. The three integer fields are summed
    as exact integers; the fraction is a float divided by the integer
    [10**len(finds[3])], and the final sum is an integer plus a float. *)
Definition cvsecs_str (time : list ascii) : result num :=
  let time := add_fraction time in
  finds <- index (findall expr time) 0 ;;
  nums <- map_result py_float finds ;;
  f0 <- index finds 0 ;; h <- py_int f0 ;;
  f1 <- index finds 1 ;; m <- py_int f1 ;;
  f2 <- index finds 2 ;; s <- py_int f2 ;;
  n3 <- index nums 3 ;;
  f3 <- index finds 3 ;;
  frac <- float_truediv n3 (PyInt (10 ^ Z.of_nat (List.length f3))) ;;
  py_add (PyInt (3600 * h + 60 * m + s)) frac.

(** The branch [elif isinstance(time, tuple)]: with a length other than 2
    or 3 the names [hr], [mn], [sec] are never bound. *)
Definition cvsecs_tuple (time : list num) : result num :=
  match time with
  | [hr; mn; sec] =>
      a <- py_mul (PyInt 3600) hr ;;
      b <- py_mul (PyInt 60) mn ;;
      c <- py_add a b ;;
      py_add c sec
  | [t0; t1] =>
      a <- py_mul (PyInt 3600) (PyInt 0) ;;
      b <- py_mul (PyInt 60) t0 ;;
      c <- py_add a b ;;
      py_add c t1
  | _ => Raise UnboundLocalError
  end.

Definition cvsecs (time : pyval) : result pyval :=
  if is_string time then
    match time with
    | PyStr s => v <- cvsecs_str s ;; Ok (PyNum v)
    | _ => Ok time
    end
  else
    match time with
    | PyTuple items => v <- cvsecs_tuple items ;; Ok (PyNum v)
    | _ => Ok time
    end.

(** ** find_extension and the registry

    A Python dictionary iterates over its items in some order; the registry
    is kept as the list of its items in insertion order, and the lookup is
    written over an arbitrary item order so that statements can range over
    the orders an interpreter may choose. *)

Inductive media : Type := video | audio | image.

(** An entry of the registry: the key ['type'] is always there, the key
    ['codec'] only for some extensions. *)
Record infos : Type := { type : media; codec : option (list string) }.

Definition extensions_dict : list (string * infos) :=
  app
   ([ ("mp4",  {| type := video; codec := Some ["libx264"; "libmpeg4"] |});
     ("ogv",  {| type := video; codec := Some ["libtheora"] |});
     ("webm", {| type := video; codec := Some ["libvpx"] |});
     ("avi",  {| type := video; codec := None |});
     ("mov",  {| type := video; codec := None |});
     ("ogg",  {| type := audio; codec := Some ["libvorbis"] |});
     ("mp3",  {| type := audio; codec := Some ["libmp3lame"] |});
     ("wav",  {| type := audio; codec := Some ["pcm_s16le"; "pcm_s32le"] |});
     ("m4a",  {| type := audio; codec := Some ["libfdk_aac"] |}) ])%string
   (map (fun ext => (ext, {| type := image; codec := None |}))
        ["jpg"; "jpeg"; "png"; "bmp"; "tiff"]%string).

(** [('codec' in infos) and codec in infos['codec']] *)
Definition has_codec (c : string) (i : infos) : bool :=
  match codec i with
  | Some l => existsb (String.eqb c) l
  | None => false
  end.

Fixpoint find_extension_in (items : list (string * infos)) (c : string)
  : result string :=
  match items with
  | [] => Raise ValueError
  | (ext, i) :: items' =>
      if has_codec c i then Ok ext else find_extension_in items' c
  end.

Definition find_extension (c : string) : result string :=
  find_extension_in extensions_dict c.

(** ** subprocess_call

    The console is the sequence of texts written to [sys.stdout]. The
    operating system is a [host]: its name and what a launched command does,
    given as the state of the child once [communicate] has returned. The
    model covers the calls in which the command is launched and the console
    accepts what is written; a [Popen] or a [sys.stdout.write] that raises
    on its own account is not described. *)

Definition console := list string.

Definition sys_write_flush (s : string) (out : console) : console :=
  out ++ [s].

Definition verbose_print (verbose : bool) (s : string) (out : console)
  : console :=
  if verbose then sys_write_flush s out else out.

Inductive stream : Type := DEVNULL | PIPE.

Record popen_params : Type :=
  { stdout : stream; stderr : stream; stdin : stream;
    creationflags : option Z }.

Record completed : Type := { returncode : Z; err : list byte }.

Record host : Type :=
  { os_name : string;
    popen : list string -> popen_params -> completed }.

Definition continuation (n : N) : bool := ((128 <=? n) && (n <=? 191))%N.

Definition tail6 (n : N) : N := (n - 128)%N.

(** [b.decode('utf8')]: strict UTF-8; overlong forms, surrogates, code
    points above 10FFFF and truncated sequences are rejected. *)
Fixpoint decode_utf8 (b : list byte) : result text :=
  match b with
  | [] => Ok []
  | b0 :: r0 =>
      let n0 := Byte.to_N b0 in
      if (n0 <? 128)%N then
        t <- decode_utf8 r0 ;; Ok (n0 :: t)
      else if ((194 <=? n0) && (n0 <=? 223))%N then
        match r0 with
        | b1 :: r1 =>
            let n1 := Byte.to_N b1 in
            if continuation n1 then
              t <- decode_utf8 r1 ;;
              Ok (((n0 - 192) * 64 + tail6 n1)%N :: t)
            else Raise UnicodeDecodeError
        | _ => Raise UnicodeDecodeError
        end
      else if ((224 <=? n0) && (n0 <=? 239))%N then
        match r0 with
        | b1 :: b2 :: r2 =>
            let n1 := Byte.to_N b1 in
            let n2 := Byte.to_N b2 in
            if continuation n1 && continuation n2
               && (negb (n0 =? 224) || (160 <=? n1))%N
               && (negb (n0 =? 237) || (n1 <=? 159))%N then
              t <- decode_utf8 r2 ;;
              Ok (((n0 - 224) * 4096 + tail6 n1 * 64 + tail6 n2)%N :: t)
            else Raise UnicodeDecodeError
        | _ => Raise UnicodeDecodeError
        end
      else if ((240 <=? n0) && (n0 <=? 244))%N then
        match r0 with
        | b1 :: b2 :: b3 :: r3 =>
            let n1 := Byte.to_N b1 in
            let n2 := Byte.to_N b2 in
            let n3 := Byte.to_N b3 in
            if continuation n1 && continuation n2 && continuation n3
               && (negb (n0 =? 240) || (144 <=? n1))%N
               && (negb (n0 =? 244) || (n1 <=? 143))%N then
              t <- decode_utf8 r3 ;;
              Ok (((n0 - 240) * 262144 + tail6 n1 * 4096
                   + tail6 n2 * 64 + tail6 n3)%N :: t)
            else Raise UnicodeDecodeError
        | _ => Raise UnicodeDecodeError
        end
      else Raise UnicodeDecodeError
  end.

(** The keyword arguments of [Popen]: the error stream is piped, the other
    two go to the null device, and on Windows ([os.name == "nt"]) the
    creation flag [0x08000000] is added. *)
Definition popen_params_for (os : string) : popen_params :=
  {| stdout := DEVNULL; stderr := PIPE; stdin := DEVNULL;
     creationflags :=
       if String.eqb os "nt" then Some 134217728 else None |}.

Definition newline : string := String (ascii_of_nat 10) EmptyString.

Definition subprocess_call (h : host) (cmd : list string)
    (verbose errorprint : bool) (out : console) : console * result unit :=
  let out :=
    verbose_print verbose
      (newline ++ "[MoviePy] Running:" ++ newline ++ ">>> "
       ++ String.concat " " cmd)%string out in
  let proc := popen h cmd (popen_params_for (os_name h)) in
  if negb (returncode proc =? 0) then
    let out :=
      verbose_print errorprint
        (newline ++ "[MoviePy] This command returned an error !")%string out in
    (out, msg <- decode_utf8 (err proc) ;; Raise (IOError msg))
  else
    let out :=
      verbose_print verbose
        (newline ++ "... command successful." ++ newline)%string out in
    (out, Ok tt).

(** ** Notions used to state the properties *)

Definition value (digits : list ascii) : Z := decimal_value 0 digits.

(** The separators of the documented grammar [(\d+):(\d+):(\d+)[.,](\d+)]. *)
Definition is_dot_or_comma (c : ascii) : bool :=
  Ascii.eqb c "." || Ascii.eqb c ",".

(** The text [H:M:S<sep>F]. *)
Definition timecode (H M S : list ascii) (sep : ascii) (F : list ascii)
  : list ascii :=
  H ++ ":"%char :: M ++ ":"%char :: S ++ sep :: F.

Definition starts_with_digit (s : list ascii) : bool :=
  match s with
  | c :: _ => is_digit c
  | [] => false
  end.

(** [t] begins with a timecode whose separator is in the class [ok]. *)
Definition match_at (ok : ascii -> bool) (t : list ascii) : Prop :=
  exists H M S sep F rest,
    t = timecode H M S sep F ++ rest /\
    all_digits H = true /\ all_digits M = true /\ all_digits S = true /\
    all_digits F = true /\ ok sep = true.

(** Some part of [t] matches the grammar. *)
Definition has_match (ok : ascii -> bool) (t : list ascii) : Prop :=
  exists pre r, t = pre ++ r /\ match_at ok r.

(** The first match of the grammar in [t], as a regular-expression search
    finds it: the leftmost start, and every group as long as it can be. *)
Definition first_match (ok : ascii -> bool) (t : list ascii)
    (H M S : list ascii) (sep : ascii) (F : list ascii) : Prop :=
  exists pre rest,
    t = pre ++ timecode H M S sep F ++ rest /\
    all_digits H = true /\ all_digits M = true /\ all_digits S = true /\
    all_digits F = true /\ ok sep = true /\
    starts_with_digit rest = false /\
    forall pre' r, t = pre' ++ r -> (List.length pre' < List.length pre)%nat ->
                   ~ match_at ok r.

(** The float that Python yields for [i + float(F) / 10**len(F)] with an
    integer [i] whose conversion is [fi]. *)
Definition seconds_float (fi : float64) (F : list ascii) : float64 :=
  fadd fi (fdiv (round_int (value F)) (round_int (10 ^ Z.of_nat (List.length F)))).

(** Two numbers are the same: identical, or both a floating-point zero
    (Python's [==] does not tell [0.0] from [-0.0]). *)
Definition same_number (a b : num) : Prop :=
  a = b \/
  exists s1 s2, a = PyFloat (S754_zero s1) /\ b = PyFloat (S754_zero s2).

Definition same_outcome (r1 r2 : result num) : Prop :=
  match r1, r2 with
  | Ok a, Ok b => same_number a b
  | Raise e1, Raise e2 => e1 = e2
  | _, _ => False
  end.

(** The arithmetic that [cvsecs] performs on the four fields of a match. *)
Definition seconds_of_fields (H M S F : list ascii) : result num :=
  frac <- float_truediv (round_int (value F))
            (PyInt (10 ^ Z.of_nat (List.length F))) ;;
  py_add (PyInt (3600 * value H + 60 * value M + value S)) frac.

(** The three calls of [int] on the fields of a match, in the order of the
    code: a [ValueError] as soon as a field has more digits than [int]
    converts. *)
Definition int_fields (H M S : list ascii) : result unit :=
  _ <- py_int H ;; _ <- py_int M ;; _ <- py_int S ;; Ok tt.

(** What [cvsecs] does with the four fields of a match. *)
Definition fields_outcome (H M S F : list ascii) : result num :=
  _ <- int_fields H M S ;; seconds_of_fields H M S F.

(** The fields that [int] converts. *)
Definition short_field (g : list ascii) : Prop :=
  (List.length g <= int_max_str_digits)%nat.

(** [10**k] converts to a finite float. *)
Definition pow10_ok (k : nat) : bool :=
  match round_int (10 ^ Z.of_nat k) with
  | S754_finite _ _ _ => true
  | _ => false
  end.

(** A number as the value that [cvsecs] returns. *)
Definition returned (r : result num) : result pyval :=
  v <- r ;; Ok (PyNum v).

(** The Python expressions [60*m + s] and [3600*h + 60*m + s]. *)
Definition minutes_seconds (m s : num) : result num :=
  a <- py_mul (PyInt 60) m ;; py_add a s.

Definition hours_minutes_seconds (h m s : num) : result num :=
  a <- py_mul (PyInt 3600) h ;;
  b <- py_mul (PyInt 60) m ;;
  c <- py_add a b ;;
  py_add c s.

(** The child that [subprocess_call] launches and waits for. *)
Definition child (h : host) (cmd : list string) : completed :=
  popen h cmd (popen_params_for (os_name h)).

(** A host on which every command exits with the given code after writing
    the given bytes to its error stream. *)
Definition host_exiting (code : Z) (written : list byte) : host :=
  {| os_name := "posix"; popen := fun _ _ => {| returncode := code; err := written |} |}.

(** A float that is not negative: a zero of either sign (Python has
    [-0.0 >= 0]), or a finite number or an infinity with the sign bit clear. *)
Definition float_nonneg (f : float64) : bool :=
  match f with
  | S754_zero _ => true
  | S754_infinity s => negb s
  | S754_finite s _ _ => negb s
  | S754_nan => false
  end.

(** The inputs on which the result of [cvsecs] is claimed to be
    non-negative: a text that matches the grammar, or a pair or a triple of
    non-negative numbers. *)
Definition nonneg_input (time : pyval) : Prop :=
  match time with
  | PyStr s => has_match is_dot_or_comma (add_fraction s)
  | PyTuple items =>
      (List.length items = 2%nat \/ List.length items = 3%nat) /\
      Forall (fun a => ge_zero a = true) items
  | _ => False
  end.

(** The longest prefix of [s] in the class [c], and what follows it. *)
Fixpoint span (c : ascii -> bool) (s : list ascii) : list ascii * list ascii :=
  match s with
  | a :: s' =>
      if c a then let (g, r) := span c s' in (a :: g, r) else ([], s)
  | [] => ([], [])
  end.

(** ** Further notions used to state properties *)

(** The three texts that [subprocess_call] may write. *)
Definition running_line (cmd : list string) : string :=
  (newline ++ "[MoviePy] Running:" ++ newline ++ ">>> "
   ++ String.concat " " cmd)%string.

Definition error_line : string :=
  (newline ++ "[MoviePy] This command returned an error !")%string.

Definition success_line : string :=
  (newline ++ "... command successful." ++ newline)%string.

(** How many times a character occurs in a text. *)
Definition occurrences (c : ascii) (s : list ascii) : nat :=
  List.length (filter (Ascii.eqb c) s).

(** The integer part of a timecode, in seconds. *)
Definition whole_seconds (H M S : list ascii) : Z :=
  3600 * value H + 60 * value M + value S.

(** The text [H:M:S], without a fraction. *)
Definition bare_timecode (H M S : list ascii) : list ascii :=
  H ++ ":"%char :: M ++ ":"%char :: S.

(** * Properties *)

Example cvsecs_doc1 :
  cvsecs (PyNum (PyFloat (lit 15.4))) = Ok (PyNum (PyFloat (lit 15.4))).
Proof. reflexivity. Qed.

Example cvsecs_doc2 :
  cvsecs (PyTuple [PyInt 1; PyFloat (lit 21.5)]) = Ok (PyNum (PyFloat (lit 81.5))).
Proof. vm_compute. reflexivity. Qed.

Example cvsecs_doc3 :
  cvsecs (PyTuple [PyInt 1; PyInt 1; PyInt 2]) = Ok (PyNum (PyInt 3662)).
Proof. reflexivity. Qed.

Example cvsecs_doc4 :
  cvsecs (PyStr (str "01:01:33.5")) = Ok (PyNum (PyFloat (lit 3693.5))).
Proof. vm_compute. reflexivity. Qed.

Example cvsecs_doc5 :
  cvsecs (PyStr (str "01:01:33.045")) = Ok (PyNum (PyFloat (lit 3693.045))).
Proof. vm_compute. reflexivity. Qed.

Example cvsecs_doc6 :
  cvsecs (PyStr (str "01:01:33,5")) = Ok (PyNum (PyFloat (lit 3693.5))).
Proof. vm_compute. reflexivity. Qed.

Example cvsecs_bare :
  cvsecs (PyStr (str "01:01:33")) = Ok (PyNum (PyFloat (lit 3693.0))).
Proof. vm_compute. reflexivity. Qed.

(** ** The matcher *)

Section Matcher.

Context {R : Type}.
Variable c : ascii -> bool.
Variable k : list ascii -> option R.

Lemma span_app : forall s g r, span c s = (g, r) -> s = g ++ r.
Proof.
  induction s as [|a s IH]; intros g r Hs; simpl in Hs.
  - inversion Hs; reflexivity.
  - destruct (c a).
    + destruct (span c s) as [g' r'] eqn:E. inversion Hs; subst.
      simpl. f_equal. now apply IH.
    + inversion Hs; reflexivity.
Qed.

Lemma span_class : forall s g r, span c s = (g, r) -> forallb c g = true.
Proof.
  induction s as [|a s IH]; intros g r Hs; simpl in Hs.
  - inversion Hs; reflexivity.
  - destruct (c a) eqn:Ca.
    + destruct (span c s) as [g' r'] eqn:E. inversion Hs; subst.
      simpl. rewrite Ca. now apply (IH g' r).
    + inversion Hs; reflexivity.
Qed.

Lemma span_stops : forall s g r a r',
    span c s = (g, r) -> r = a :: r' -> c a = false.
Proof.
  induction s as [|a0 s IH]; intros g r a r' Hs Hr; simpl in Hs.
  - inversion Hs; subst; discriminate.
  - destruct (c a0) eqn:Ca.
    + destruct (span c s) as [g' r0] eqn:E. inversion Hs; subst.
      now apply (IH g' (a :: r') a r').
    + inversion Hs; subst. inversion H1; subst. exact Ca.
Qed.

Lemma span_run : forall g r,
    forallb c g = true ->
    (forall a r', r = a :: r' -> c a = false) ->
    span c (g ++ r) = (g, r).
Proof.
  induction g as [|a g IH]; intros r Hg Hr; simpl.
  - destruct r as [|a r']; [reflexivity|].
    simpl. now rewrite (Hr a r' eq_refl).
  - simpl in Hg. apply andb_true_iff in Hg as [Ca Hg].
    rewrite Ca, (IH r Hg Hr). reflexivity.
Qed.

(** Whatever the group takes is a non-empty run of the class, and the
    rest of the pattern matched what follows. *)
Lemma group_plus_sound : forall s g x,
    group_plus c k s = Some (g, x) ->
    exists r, s = g ++ r /\ g <> [] /\ forallb c g = true /\ k r = Some x.
Proof.
  induction s as [|a s IH]; intros g x Hs; simpl in Hs; [discriminate|].
  destruct (c a) eqn:Ca; [|discriminate].
  destruct (group_plus c k s) as [[g' x']|] eqn:E.
  - inversion Hs; subst. destruct (IH g' x eq_refl) as (r & -> & _ & Hg & Hk).
    exists r. simpl. rewrite Ca. repeat split; auto. discriminate.
  - destruct (k s) as [x'|] eqn:Ek; [|discriminate].
    inversion Hs; subst. exists s. simpl. rewrite Ca.
    repeat split; auto. discriminate.
Qed.

(** The group is greedy: when the rest of the pattern matches after the
    longest run, that run is the group. *)
Lemma group_plus_greedy : forall s g r x,
    span c s = (g, r) -> g <> [] -> k r = Some x ->
    group_plus c k s = Some (g, x).
Proof.
  induction s as [|a s IH]; intros g r x Hs Hg Hk; simpl in Hs.
  - inversion Hs; subst. now elim Hg.
  - simpl. destruct (c a) eqn:Ca.
    + destruct (span c s) as [g' r'] eqn:E. inversion Hs; subst.
      destruct g' as [|b g'].
      * assert (group_plus c k s = None) as ->.
        { destruct s as [|b s]; [reflexivity|]. simpl in *.
          destruct (c b); [|reflexivity].
          destruct (span c s); discriminate. }
        apply span_app in E. simpl in E. subst. now rewrite Hk.
      * rewrite (IH (b :: g') r x eq_refl); [reflexivity| discriminate | exact Hk].
    + inversion Hs; subst. now elim Hg.
Qed.

End Matcher.

Lemma all_digits_run : forall g,
    g <> [] -> forallb is_digit g = true -> all_digits g = true.
Proof. intros [|a g] Hg Hd; [now elim Hg | exact Hd]. Qed.

Lemma all_digits_inv : forall g,
    all_digits g = true -> g <> [] /\ forallb is_digit g = true.
Proof. intros [|a g] Hd; [discriminate|]. split; [discriminate | exact Hd]. Qed.

Lemma span_nonempty : forall (c : ascii -> bool) a s,
    c a = true -> fst (span c (a :: s)) <> [].
Proof. intros c a s Ca. simpl. rewrite Ca. destruct (span c s). discriminate. Qed.

Lemma starts_with_digit_stop : forall r,
    starts_with_digit r = false <->
    (forall a r', r = a :: r' -> is_digit a = false).
Proof.
  intros [|a r]; simpl; split; intros H; try reflexivity.
  - intros; discriminate.
  - intros b r' E. now inversion E; subst.
  - now apply (H a r).
Qed.

(** The last group of the pattern takes the whole run of digits. *)
Lemma last_group_longest : forall s F rest,
    group_plus is_digit (match_here []) s = Some (F, ([], rest)) ->
    s = F ++ rest /\ all_digits F = true /\ starts_with_digit rest = false.
Proof.
  intros s F rest Hs.
  destruct (group_plus_sound _ _ _ _ _ Hs) as (r & E & Hne & Hd & Hk).
  simpl in Hk. inversion Hk; subst r. clear Hk.
  repeat split; auto using all_digits_run.
  destruct (span is_digit s) as [g0 r0] eqn:Sp.
  assert (g0 <> []) as Hg0.
  { destruct F as [|a F]; [now elim Hne|]. simpl in Hd.
    apply andb_true_iff in Hd as [Ca _]. subst s.
    pose proof (span_nonempty is_digit a (F ++ rest) Ca) as Hn.
    simpl app in Sp. now rewrite Sp in Hn. }
  pose proof (group_plus_greedy is_digit (match_here []) s g0 r0 ([], r0)
                Sp Hg0 eq_refl) as Hgr.
  rewrite Hs in Hgr. inversion Hgr; subst.
  apply starts_with_digit_stop. intros a r' Er.
  exact (span_stops _ _ _ _ _ _ Sp Er).
Qed.

(** What a match of the pattern at the start of [s] looks like. *)
Lemma match_here_expr_sound : forall s gs rest,
    match_here expr s = Some (gs, rest) ->
    exists H M S sep F,
      gs = [H; M; S; F] /\ s = timecode H M S sep F ++ rest /\
      all_digits H = true /\ all_digits M = true /\ all_digits S = true /\
      all_digits F = true /\ is_sep sep = true /\
      starts_with_digit rest = false.
Proof.
  intros s gs rest Hm. unfold expr in Hm. cbn [match_here] in Hm.
  destruct (group_plus is_digit _ s) as [[H [gs1 r1]]|] eqn:E1; [|discriminate].
  inversion Hm; subst; clear Hm.
  apply group_plus_sound in E1 as (s1 & -> & HneH & HdH & K1).
  destruct s1 as [|c1 s1]; [discriminate|].
  destruct (is_colon c1) eqn:C1; [|discriminate].
  destruct (group_plus is_digit _ s1) as [[M [gs2 r2]]|] eqn:E2; [|discriminate].
  inversion K1; subst; clear K1.
  apply group_plus_sound in E2 as (s2 & -> & HneM & HdM & K2).
  destruct s2 as [|c2 s2]; [discriminate|].
  destruct (is_colon c2) eqn:C2; [|discriminate].
  destruct (group_plus is_digit _ s2) as [[S [gs3 r3]]|] eqn:E3; [|discriminate].
  inversion K2; subst; clear K2.
  apply group_plus_sound in E3 as (s3 & -> & HneS & HdS & K3).
  destruct s3 as [|sep s3]; [discriminate|].
  destruct (is_sep sep) eqn:C3; [|discriminate].
  destruct (group_plus is_digit _ s3) as [[F [gs4 r4]]|] eqn:E4; [|discriminate].
  inversion K3; subst; clear K3.
  assert (gs4 = []) as ->.
  { apply group_plus_sound in E4 as (r & _ & _ & _ & K4).
    simpl in K4. now inversion K4. }
  apply last_group_longest in E4 as (-> & HdF & Hrest).
  apply Ascii.eqb_eq in C1, C2. subst c1 c2.
  exists H, M, S, sep, F. unfold timecode.
  repeat split; auto using all_digits_run.
  repeat (rewrite <- app_assoc; simpl). reflexivity.
Qed.

Lemma match_group_then_chr : forall (c d : ascii -> bool) p g a r gs rest,
    g <> [] -> forallb c g = true -> c a = false -> d a = true ->
    match_here p r = Some (gs, rest) ->
    match_here (GroupPlus c :: Chr d :: p) (g ++ a :: r) = Some (g :: gs, rest).
Proof.
  intros c d p g a r gs rest Hne Hg Ca Da Hp.
  cbn [match_here].
  rewrite (group_plus_greedy c _ (g ++ a :: r) g (a :: r) (gs, rest)).
  - reflexivity.
  - apply span_run; auto. intros b r' E. now inversion E; subst.
  - exact Hne.
  - now rewrite Da.
Qed.

Lemma match_last_group : forall (c : ascii -> bool) g rest,
    g <> [] -> forallb c g = true ->
    (forall a r', rest = a :: r' -> c a = false) ->
    match_here [GroupPlus c] (g ++ rest) = Some ([g], rest).
Proof.
  intros c g rest Hne Hg Hr. cbn [match_here].
  rewrite (group_plus_greedy c _ (g ++ rest) g rest ([], rest)); auto.
  now apply span_run.
Qed.

Lemma colon_not_digit : is_digit ":" = false.
Proof. reflexivity. Qed.

Lemma sep_not_digit : forall c, is_sep c = true -> is_digit c = false.
Proof.
  intros c Hc. unfold is_sep in Hc.
  apply orb_true_iff in Hc as [Hc|Hc]; [apply orb_true_iff in Hc as [Hc|Hc]|];
    apply Ascii.eqb_eq in Hc; subst; reflexivity.
Qed.

(** A timecode followed by something that is not a digit is matched, with
    its four fields as the groups. *)
Lemma match_here_expr_complete : forall H M S sep F rest,
    all_digits H = true -> all_digits M = true -> all_digits S = true ->
    all_digits F = true -> is_sep sep = true ->
    starts_with_digit rest = false ->
    match_here expr (timecode H M S sep F ++ rest) = Some ([H; M; S; F], rest).
Proof.
  intros H M S sep F rest HH HM HS HF Hsep Hrest.
  apply all_digits_inv in HH as [HH1 HH2], HM as [HM1 HM2],
        HS as [HS1 HS2], HF as [HF1 HF2].
  unfold timecode, expr.
  repeat (rewrite <- app_assoc; cbn [app]).
  apply match_group_then_chr; auto using colon_not_digit.
  apply match_group_then_chr; auto using colon_not_digit.
  apply match_group_then_chr; auto using sep_not_digit.
  apply match_last_group; auto.
  now apply starts_with_digit_stop.
Qed.

(** Digits that follow a timecode extend its last field. *)
Lemma match_at_extend : forall ok t,
    match_at ok t ->
    exists H M S sep F rest,
      t = timecode H M S sep F ++ rest /\
      all_digits H = true /\ all_digits M = true /\ all_digits S = true /\
      all_digits F = true /\ ok sep = true /\ starts_with_digit rest = false.
Proof.
  intros ok t (H & M & S & sep & F & rest & -> & HH & HM & HS & HF & Hsep).
  destruct (span is_digit rest) as [g r] eqn:Sp.
  exists H, M, S, sep, (F ++ g), r.
  pose proof (span_app _ _ _ _ Sp) as ->.
  pose proof (span_class _ _ _ _ Sp) as Hg.
  apply all_digits_inv in HF as [HF1 HF2].
  repeat split; auto.
  - unfold timecode. repeat (rewrite <- app_assoc; simpl). reflexivity.
  - apply all_digits_run.
    + destruct F; [now elim HF1 | discriminate].
    + rewrite forallb_app, HF2, Hg. reflexivity.
  - apply starts_with_digit_stop. intros a r' E.
    exact (span_stops _ _ _ _ _ _ Sp E).
Qed.

(** The pattern matches at the start of [t] exactly when [t] begins with a
    timecode whose separator is a comma, a vertical bar or a dot. *)
Lemma match_here_expr_iff : forall t,
    match_here expr t <> None <-> match_at is_sep t.
Proof.
  intros t; split.
  - destruct (match_here expr t) as [[gs rest]|] eqn:E; [intros _ | now intros []].
    apply match_here_expr_sound in E
      as (H & M & S & sep & F & _ & -> & HH & HM & HS & HF & Hsep & _).
    now exists H, M, S, sep, F, rest.
  - intros Hm. apply match_at_extend in Hm
      as (H & M & S & sep & F & rest & -> & HH & HM & HS & HF & Hsep & Hrest).
    rewrite match_here_expr_complete; auto. discriminate.
Qed.

(** ** The search *)

Lemma findall_from_zero : forall p s,
    findall_from p 0 s =
    match match_here p s with
    | Some (gs, rest) =>
        gs :: match s with
              | [] => []
              | _ :: s' =>
                  findall_from p (Nat.pred (List.length s - List.length rest)) s'
              end
    | None =>
        match s with
        | [] => []
        | _ :: s' => findall_from p 0 s'
        end
    end.
Proof. intros p [|a s]; reflexivity. Qed.

(** The first element of [findall] is the match at the leftmost position
    where the pattern matches. *)
Lemma findall_first : forall p pre r gs rest,
    match_here p r = Some (gs, rest) ->
    (forall pre' r', pre ++ r = pre' ++ r' ->
                     (List.length pre' < List.length pre)%nat ->
                     match_here p r' = None) ->
    index (findall p (pre ++ r)) 0 = Ok gs.
Proof.
  intros p pre r gs rest Hm. unfold findall.
  induction pre as [|a pre IH]; intros Hleft.
  - simpl app. rewrite findall_from_zero, Hm. reflexivity.
  - rewrite findall_from_zero.
    rewrite (Hleft [] ((a :: pre) ++ r) eq_refl) by (simpl; lia).
    simpl app. apply IH. intros pre' r' E Hlen.
    apply (Hleft (a :: pre') r'); simpl; [now rewrite E | lia].
Qed.

(** When the pattern matches nowhere, [findall] is empty. *)
Lemma findall_none : forall p s,
    (forall pre r, s = pre ++ r -> match_here p r = None) ->
    findall p s = [].
Proof.
  intros p s. unfold findall.
  induction s as [|a s IH]; intros Hno; rewrite findall_from_zero.
  - now rewrite (Hno [] [] eq_refl).
  - rewrite (Hno [] (a :: s) eq_refl). apply IH.
    intros pre r E. apply (Hno (a :: pre) r). now rewrite E.
Qed.

Lemma match_here_none : forall t,
    ~ match_at is_sep t -> match_here expr t = None.
Proof.
  intros t Hn. destruct (match_here expr t) eqn:E; [|reflexivity].
  elim Hn. apply match_here_expr_iff. now rewrite E.
Qed.

(** ** The string branch of cvsecs *)

Lemma py_int_digits : forall g,
    all_digits g = true -> short_field g -> py_int g = Ok (value g).
Proof.
  intros g Hg Hs. unfold py_int. rewrite Hg.
  now rewrite (proj2 (Nat.leb_le _ _) Hs).
Qed.

Lemma py_int_long : forall g,
    ~ short_field g -> py_int g = Raise ValueError.
Proof.
  intros g Hs. unfold py_int. destruct (all_digits g); [|reflexivity].
  destruct (Nat.leb_spec (List.length g) int_max_str_digits); [|reflexivity].
  now elim Hs.
Qed.

Lemma py_int_outcome : forall g,
    all_digits g = true ->
    py_int g = Ok (value g) \/ py_int g = Raise ValueError.
Proof.
  intros g Hg. unfold py_int. rewrite Hg.
  destruct (List.length g <=? int_max_str_digits)%nat; auto.
Qed.

Lemma short_field_decidable : forall g, short_field g \/ ~ short_field g.
Proof.
  intros g. unfold short_field.
  destruct (Nat.le_gt_cases (List.length g) int_max_str_digits); [now left|].
  right. lia.
Qed.

Lemma py_float_digits : forall g,
    all_digits g = true -> py_float g = Ok (round_int (value g)).
Proof. intros g Hg. unfold py_float. now rewrite Hg. Qed.

Lemma cvsecs_str_first_match : forall s H M S sep F,
    first_match is_sep (add_fraction s) H M S sep F ->
    cvsecs_str s = fields_outcome H M S F.
Proof.
  intros s H M S sep F (pre & rest & Et & HH & HM & HS & HF & Hsep & Hrest & Hleft).
  unfold cvsecs_str. rewrite Et.
  rewrite (findall_first expr pre _ [H; M; S; F] rest).
  - cbn [bind map_result].
    rewrite !py_float_digits by assumption. cbn [bind index nth_error].
    unfold fields_outcome, int_fields, seconds_of_fields.
    destruct (py_int_outcome H HH) as [-> | ->]; cbn [bind]; [|reflexivity].
    destruct (py_int_outcome M HM) as [-> | ->]; cbn [bind]; [|reflexivity].
    destruct (py_int_outcome S HS) as [-> | ->]; cbn [bind]; reflexivity.
  - now apply match_here_expr_complete.
  - intros pre' r' E Hlen. apply match_here_none.
    apply (Hleft pre' r'); [now rewrite Et | exact Hlen].
Qed.

Lemma cvsecs_str_no_match : forall s,
    ~ has_match is_sep (add_fraction s) -> cvsecs_str s = Raise IndexError.
Proof.
  intros s Hno. unfold cvsecs_str.
  rewrite findall_none; [reflexivity|].
  intros pre r E. apply match_here_none. intros Hm.
  apply Hno. now exists pre, r.
Qed.

(** Every text with a match has a first match. *)
Lemma first_match_exists : forall t,
    has_match is_sep t -> exists H M S sep F, first_match is_sep t H M S sep F.
Proof.
  induction t as [|a t IH]; intros (pre & r & E & Hm).
  - destruct pre; [|discriminate]. simpl in E; subst r.
    destruct Hm as (H & M & S & sep & F & rest & E & HH & _).
    destruct H; [discriminate | discriminate].
  - destruct (match_here expr (a :: t)) as [[gs rest]|] eqn:Em.
    + apply match_here_expr_sound in Em
        as (H & M & S & sep & F & _ & Et & HH & HM & HS & HF & Hsep & Hrest).
      exists H, M, S, sep, F, [], rest. rewrite Et.
      repeat split; auto. intros pre' r' _ Hlen. simpl in Hlen. lia.
    + destruct pre as [|b pre].
      * simpl in E; subst r.
        apply match_here_expr_iff in Hm. now rewrite Em in Hm.
      * inversion E; subst.
        destruct IH as (H & M & S & sep & F & pre0 & rest & Et & HH & HM & HS
                        & HF & Hsep & Hrest & Hleft); [now exists pre, r|].
        exists H, M, S, sep, F, (b :: pre0), rest. rewrite Et.
        repeat split; auto. intros pre' r' E' Hlen.
        destruct pre' as [|b' pre'].
        -- simpl in E'; subst r'. rewrite <- Et.
           intros Hm'. apply match_here_expr_iff in Hm'. now rewrite Em in Hm'.
        -- simpl in E'. inversion E'. apply (Hleft pre' r'); [|simpl in Hlen; lia].
           now rewrite Et.
Qed.

(** ** The range of binary64

    How many bits a positive integer has decides whether it converts to a
    float: every integer below [2^1023] does, none from [2^1024] on. *)

Lemma digits2_size : forall p, digits2_pos p = Pos.size p.
Proof. induction p; simpl; congruence. Qed.

Lemma digits_bounds : forall p,
    2 ^ (Zpos (digits2_pos p) - 1) <= Zpos p < 2 ^ Zpos (digits2_pos p).
Proof.
  intros p. rewrite digits2_size.
  pose proof (Pos.size_gt p) as Hgt. pose proof (Pos.size_le p) as Hle.
  apply Pos2Z.pos_lt_pos in Hgt. apply Pos2Z.pos_le_pos in Hle.
  rewrite Pos2Z.inj_pow in Hgt, Hle. change (Z.pos p~0) with (2 * Z.pos p) in Hle.
  split; [|exact Hgt].
  assert (2 ^ Zpos (Pos.size p) = 2 * 2 ^ (Zpos (Pos.size p) - 1)) as E.
  { rewrite <- Z.pow_succ_r by lia. f_equal. lia. }
  lia.
Qed.

Lemma digits_unique : forall p n,
    2 ^ (n - 1) <= Zpos p < 2 ^ n -> Zpos (digits2_pos p) = n.
Proof.
  intros p n [Hlo Hhi]. pose proof (digits_bounds p) as [Dlo Dhi].
  assert (0 < n) as Hn.
  { destruct (Z.ltb_spec 0 n); auto.
    assert (2 ^ n <= 1).
    { destruct (Z.eq_dec n 0); [subst; simpl; lia|].
      rewrite Z.pow_neg_r by lia. lia. }
    lia. }
  assert (Zpos (digits2_pos p) - 1 < n).
  { apply (Z.pow_lt_mono_r_iff 2); lia. }
  assert (n - 1 < Zpos (digits2_pos p)).
  { apply (Z.pow_lt_mono_r_iff 2); lia. }
  lia.
Qed.

Lemma shr_1_half : forall mrs,
    0 <= shr_m mrs -> shr_m (shr_1 mrs) = shr_m mrs / 2.
Proof.
  intros [m r s] H. simpl in H. rewrite <- Z.div2_div.
  destruct m as [|[p|p|]|p]; simpl; try reflexivity; lia.
Qed.

Lemma iter_shr_1 : forall n mrs,
    0 <= shr_m mrs ->
    shr_m (iter_pos shr_1 n mrs) = shr_m mrs / 2 ^ Zpos n.
Proof.
  induction n as [n IH|n IH|]; intros mrs H; simpl iter_pos.
  - assert (0 <= shr_m (shr_1 mrs)) as H1.
    { rewrite shr_1_half by exact H. apply Z.div_pos; lia. }
    assert (0 <= shr_m (iter_pos shr_1 n (shr_1 mrs))) as H2.
    { rewrite IH by exact H1. apply Z.div_pos; [exact H1 | lia]. }
    rewrite IH by exact H2. rewrite IH by exact H1. rewrite shr_1_half by exact H.
    rewrite !Z.div_div by lia. f_equal.
    rewrite Pos2Z.inj_xI.
    replace (2 * Zpos n + 1) with (Zpos n + Zpos n + 1) by lia.
    rewrite !Z.pow_add_r by lia. ring.
  - assert (0 <= shr_m (iter_pos shr_1 n mrs)) as H2.
    { rewrite IH by exact H. apply Z.div_pos; [exact H | lia]. }
    rewrite IH by exact H2. rewrite IH by exact H.
    rewrite Z.div_div by lia. f_equal.
    change (Z.pos n~0) with (2 * Z.pos n).
    replace (2 * Zpos n) with (Zpos n + Zpos n) by lia.
    rewrite Z.pow_add_r by lia. ring.
  - rewrite shr_1_half by exact H. reflexivity.
Qed.

Lemma shr_spec : forall mrs e n,
    0 <= shr_m mrs -> 0 <= n ->
    shr_m (fst (shr mrs e n)) = shr_m mrs / 2 ^ n /\ snd (shr mrs e n) = e + n.
Proof.
  intros mrs e [|q|q] Hm Hn; simpl; try lia.
  - rewrite Z.div_1_r. lia.
  - split; [now apply iter_shr_1 | reflexivity].
Qed.

Lemma shr_record_of_loc_m : forall m l, shr_m (shr_record_of_loc m l) = m.
Proof. intros m [|[| |]]; reflexivity. Qed.

Lemma round_nearest_even_range : forall m l,
    m <= round_nearest_even m l <= m + 1.
Proof. intros m [|[| |]]; simpl; try destruct (Z.even m); lia. Qed.

Lemma fexp_normal : forall x, -1021 <= x -> fexp prec emax x = x - 53.
Proof. intros x Hx. unfold fexp, emin, prec, emax. lia. Qed.

(** Rounding a significand of at least 53 bits: the result is finite when
    the number is below [2^1023] and an infinity from [2^1024] on. *)
Lemma binary_round_aux_normal : forall p e l,
    53 <= Zpos (digits2_pos p) -> -1074 <= e ->
    (Zpos (digits2_pos p) + e <= 1023 ->
     exists m' e', binary_round_aux prec emax false (Zpos p) e l
                   = S754_finite false m' e') /\
    (1025 <= Zpos (digits2_pos p) + e ->
     binary_round_aux prec emax false (Zpos p) e l = S754_infinity false).
Proof.
  intros p e l Hd He. set (d := Zpos (digits2_pos p)) in *.
  pose proof (digits_bounds p) as [Plo Phi]. fold d in Plo, Phi.
  unfold binary_round_aux, shr_fexp. cbn [Zdigits2]. fold d.
  rewrite (fexp_normal (d + e)) by lia.
  destruct (shr_spec (shr_record_of_loc (Zpos p) l) e (d + e - 53 - e))
    as [M1 E1]; [rewrite shr_record_of_loc_m; lia | lia |].
  rewrite shr_record_of_loc_m in M1.
  destruct (shr (shr_record_of_loc (Zpos p) l) e (d + e - 53 - e)) as [mrs1 e1].
  cbn [fst snd] in M1, E1.
  replace (d + e - 53 - e) with (d - 53) in M1 by lia.
  assert (2 ^ 52 <= shr_m mrs1 < 2 ^ 53) as [Mlo Mhi].
  { rewrite M1. split.
    - apply Z.div_le_lower_bound; [apply Z.pow_pos_nonneg; lia|].
      rewrite <- Z.pow_add_r by lia. replace (d - 53 + 52) with (d - 1) by lia.
      exact Plo.
    - apply Z.div_lt_upper_bound; [apply Z.pow_pos_nonneg; lia|].
      rewrite <- Z.pow_add_r by lia. replace (d - 53 + 53) with d by lia.
      exact Phi. }
  pose proof (round_nearest_even_range (shr_m mrs1) (loc_of_shr_record mrs1))
    as [Rlo Rhi].
  destruct (round_nearest_even (shr_m mrs1) (loc_of_shr_record mrs1))
    as [|pr|pr] eqn:ER; try lia.
  cbn [Zdigits2].
  assert (Zpos (digits2_pos pr) = 53 \/
          (Zpos (digits2_pos pr) = 54 /\ Zpos pr = 2 ^ 53)) as Hdr.
  { destruct (Z.ltb_spec (Zpos pr) (2 ^ 53)).
    - left. apply digits_unique. change (53 - 1) with 52. lia.
    - right. split; [|lia]. apply digits_unique.
      change (54 - 1) with 53. change (2 ^ 54) with (2 * 2 ^ 53). lia. }
  assert (e1 = d + e - 53) as -> by lia.
  rewrite fexp_normal by lia.
  destruct (shr_spec (shr_record_of_loc (Zpos pr) loc_Exact) (d + e - 53)
              (Zpos (digits2_pos pr) + (d + e - 53) - 53 - (d + e - 53)))
    as [M2 E2]; [simpl; lia | lia |].
  destruct (shr (shr_record_of_loc (Zpos pr) loc_Exact) (d + e - 53) _)
    as [mrs2 e2].
  cbn [fst snd shr_record_of_loc shr_m] in M2, E2.
  assert (0 < shr_m mrs2) as Hpos.
  { rewrite M2. destruct Hdr as [Hdr|[Hdr Hpr]]; rewrite Hdr.
    - replace (53 + (d + e - 53) - 53 - (d + e - 53)) with 0 by lia.
      rewrite Z.div_1_r. lia.
    - replace (54 + (d + e - 53) - 53 - (d + e - 53)) with 1 by lia.
      rewrite Hpr. change (2 ^ 53 / 2 ^ 1) with (2 ^ 52). lia. }
  destruct (shr_m mrs2) as [|m2|m2]; try lia.
  unfold emax, prec. split; intros Hb.
  - destruct (Z.leb_spec e2 (1024 - 53)); [eauto | lia].
  - destruct (Z.leb_spec e2 (1024 - 53)); [lia | reflexivity].
Qed.

Lemma digits_shift : forall p k,
    digits2_pos (Pos.iter xO p k) = (digits2_pos p + k)%positive.
Proof.
  intros p k. induction k as [|k IH] using Pos.peano_ind.
  - simpl. lia.
  - rewrite Pos.iter_succ. cbn [digits2_pos]. rewrite IH. lia.
Qed.

Lemma round_int_range : forall p,
    (Zpos (digits2_pos p) <= 1023 ->
     exists m e, round_int (Zpos p) = S754_finite false m e) /\
    (1025 <= Zpos (digits2_pos p) ->
     round_int (Zpos p) = S754_infinity false).
Proof.
  intros p. unfold round_int, binary_normalize, binary_round, shl_align.
  rewrite fexp_normal by lia.
  destruct (Zpos (digits2_pos p) + 0 - 53 - 0) as [|q|q] eqn:Eq.
  - destruct (binary_round_aux_normal p 0 loc_Exact) as [A B]; try lia.
    split; intros Hd; [apply A | apply B]; lia.
  - destruct (binary_round_aux_normal p 0 loc_Exact) as [A B]; try lia.
    split; intros Hd; [apply A | apply B]; lia.
  - assert (Zpos (digits2_pos (Pos.iter xO p q)) = 53) as Hq.
    { rewrite digits_shift. lia. }
    destruct (binary_round_aux_normal (Pos.iter xO p q)
                (Zpos (digits2_pos p) + 0 - 53) loc_Exact) as [A _]; try lia.
    split; intros Hd; [apply A | ]; lia.
Qed.

Lemma int_to_float_converts : forall z,
    0 <= z < 2 ^ 1023 -> int_to_float z = Ok (round_int z).
Proof.
  intros [|p|p] [Hlo Hhi]; [reflexivity | | lia].
  pose proof (digits_bounds p) as [Plo _].
  destruct (round_int_range p) as [A _]. unfold int_to_float.
  destruct A as (m & e & ->); [|reflexivity].
  assert (Zpos (digits2_pos p) - 1 < 1023); [|lia].
  apply (Z.pow_lt_mono_r_iff 2); lia.
Qed.

Lemma int_to_float_overflows : forall z,
    2 ^ 1024 <= z -> int_to_float z = Raise OverflowError.
Proof.
  intros [|p|p] Hz; try (exfalso; revert Hz; apply Z.lt_nge; reflexivity).
  pose proof (digits_bounds p) as [_ Phi].
  destruct (round_int_range p) as [_ B]. unfold int_to_float.
  rewrite B; [reflexivity|].
  assert (1024 < Zpos (digits2_pos p)); [|lia].
  apply (Z.pow_lt_mono_r_iff 2); lia.
Qed.

Lemma pow10_overflows : forall k,
    (309 <= k)%nat -> int_to_float (10 ^ Z.of_nat k) = Raise OverflowError.
Proof.
  intros k Hk. apply int_to_float_overflows.
  apply Z.le_trans with (10 ^ 309); [vm_compute; discriminate|].
  apply Z.pow_le_mono_r; lia.
Qed.

(** ** The arithmetic on the fields *)

Lemma pow10_table : forallb pow10_ok (seq 0 309) = true.
Proof. vm_compute. reflexivity. Qed.

(** Up to [10**308] the denominator converts to a finite, non-zero float. *)
Lemma pow10_converts : forall k,
    (k <= 308)%nat ->
    exists s m e, round_int (10 ^ Z.of_nat k) = S754_finite s m e.
Proof.
  intros k Hk.
  assert (In k (seq 0 309)) as Hin by (apply in_seq; lia).
  pose proof (proj1 (forallb_forall _ _) pow10_table k Hin) as T.
  unfold pow10_ok in T.
  destruct (round_int (10 ^ Z.of_nat k)); try discriminate. eauto.
Qed.

Lemma py_add_int_float : forall i fi q,
    int_to_float i = Ok fi ->
    py_add (PyInt i) (PyFloat q) = Ok (PyFloat (fadd fi q)).
Proof. intros i fi q Hi. unfold py_add, as_float. now rewrite Hi. Qed.

Lemma seconds_of_fields_value : forall H M S F fi,
    (List.length F <= 308)%nat ->
    int_to_float (3600 * value H + 60 * value M + value S) = Ok fi ->
    seconds_of_fields H M S F = Ok (PyFloat (seconds_float fi F)).
Proof.
  intros H M S F fi HF Hi.
  unfold seconds_of_fields, float_truediv, as_float, int_to_float at 1,
    seconds_float.
  destruct (pow10_converts _ HF) as (s & m & e & ->).
  cbn [bind is_zero]. now apply py_add_int_float.
Qed.

Lemma seconds_of_fields_overflow : forall H M S F,
    (309 <= List.length F)%nat ->
    seconds_of_fields H M S F = Raise OverflowError.
Proof.
  intros H M S F HF. unfold seconds_of_fields, float_truediv, as_float.
  now rewrite (pow10_overflows _ HF).
Qed.

(** ** Texts without a vertical bar *)

Lemma dot_or_comma_sep : forall c, is_dot_or_comma c = true -> is_sep c = true.
Proof.
  intros c. unfold is_dot_or_comma, is_sep.
  destruct (Ascii.eqb c "."), (Ascii.eqb c ","), (Ascii.eqb c "|"); auto.
Qed.

Lemma sep_without_bar : forall c,
    is_sep c = true -> Ascii.eqb "|" c = false -> is_dot_or_comma c = true.
Proof.
  intros c. unfold is_dot_or_comma, is_sep. rewrite (Ascii.eqb_sym "|" c).
  destruct (Ascii.eqb c "."), (Ascii.eqb c ","), (Ascii.eqb c "|");
    auto; discriminate.
Qed.

Lemma contains_app : forall c l1 l2,
    contains c (l1 ++ l2) = contains c l1 || contains c l2.
Proof. intros; apply existsb_app. Qed.

Lemma contains_suffix : forall c pre r,
    contains c (pre ++ r) = false -> contains c r = false.
Proof.
  intros c pre r H. rewrite contains_app in H.
  now apply orb_false_iff in H.
Qed.

Lemma match_at_weaken : forall t, match_at is_dot_or_comma t -> match_at is_sep t.
Proof.
  intros t (H & M & S & sep & F & rest & E & HH & HM & HS & HF & Hsep).
  exists H, M, S, sep, F, rest. auto 10 using dot_or_comma_sep.
Qed.

Lemma timecode_sep_inside : forall c H M S sep F rest,
    contains c (timecode H M S sep F ++ rest) = false -> Ascii.eqb c sep = false.
Proof.
  intros c H M S sep F rest Hc. unfold timecode in Hc.
  repeat (rewrite <- app_assoc in Hc; cbn [app] in Hc).
  apply contains_suffix in Hc. simpl in Hc. apply orb_false_iff in Hc as [_ Hc].
  apply contains_suffix in Hc. simpl in Hc. apply orb_false_iff in Hc as [_ Hc].
  apply contains_suffix in Hc. simpl in Hc. now apply orb_false_iff in Hc as [Hc _].
Qed.

Lemma match_at_without_bar : forall t,
    contains "|" t = false -> match_at is_sep t -> match_at is_dot_or_comma t.
Proof.
  intros t Hb (H & M & S & sep & F & rest & E & HH & HM & HS & HF & Hsep).
  exists H, M, S, sep, F, rest. subst t.
  apply timecode_sep_inside in Hb. auto 10 using sep_without_bar.
Qed.

Lemma first_match_without_bar : forall t H M S sep F,
    contains "|" t = false ->
    first_match is_dot_or_comma t H M S sep F -> first_match is_sep t H M S sep F.
Proof.
  intros t H M S sep F Hb
         (pre & rest & E & HH & HM & HS & HF & Hsep & Hrest & Hleft).
  exists pre, rest. repeat split; auto using dot_or_comma_sep.
  intros pre' r E' Hlen Hm. apply (Hleft pre' r E' Hlen).
  apply match_at_without_bar; [|exact Hm].
  rewrite E' in Hb. now apply contains_suffix in Hb.
Qed.

Lemma add_fraction_without_bar : forall s,
    contains "|" s = false -> contains "|" (add_fraction s) = false.
Proof.
  intros s Hb. unfold add_fraction.
  destruct (negb (contains "," s) && negb (contains "." s)); [|exact Hb].
  rewrite contains_app, Hb. reflexivity.
Qed.

Lemma has_match_weaken : forall t, has_match is_dot_or_comma t -> has_match is_sep t.
Proof.
  intros t (pre & r & E & Hm). exists pre, r. auto using match_at_weaken.
Qed.

(** ** cvsecs on text *)

Lemma add_fraction_keeps : forall t,
    contains "," t || contains "." t = true -> add_fraction t = t.
Proof.
  intros t H. unfold add_fraction.
  destruct (contains "," t), (contains "." t); try reflexivity; discriminate.
Qed.

Lemma contains_timecode_sep : forall H M S sep F,
    is_dot_or_comma sep = true ->
    contains "," (timecode H M S sep F) || contains "." (timecode H M S sep F)
    = true.
Proof.
  intros H M S sep F Hsep. unfold timecode, contains.
  repeat (rewrite existsb_app; cbn [existsb]).
  unfold is_dot_or_comma in Hsep.
  rewrite (Ascii.eqb_sym "," sep), (Ascii.eqb_sym "." sep).
  destruct (Ascii.eqb sep "."), (Ascii.eqb sep ","); try discriminate;
    rewrite ?orb_true_r, ?orb_true_l; reflexivity.
Qed.

(** A text in which the pattern matches nowhere makes the index [[0]] fail. *)
Lemma cvsecs_unmatched_text : forall s,
    ~ has_match is_sep (add_fraction s) -> cvsecs (PyStr s) = Raise IndexError.
Proof.
  intros s Hno. cbn [cvsecs is_string]. now rewrite cvsecs_str_no_match.
Qed.

Lemma fields_outcome_short : forall H M S F,
    all_digits H = true -> all_digits M = true -> all_digits S = true ->
    short_field H -> short_field M -> short_field S ->
    fields_outcome H M S F = seconds_of_fields H M S F.
Proof.
  intros H M S F HH HM HS SH SM SS. unfold fields_outcome, int_fields.
  now rewrite !py_int_digits by assumption.
Qed.

Lemma fields_outcome_long : forall H M S F,
    all_digits H = true -> all_digits M = true -> all_digits S = true ->
    ~ short_field H \/ ~ short_field M \/ ~ short_field S ->
    fields_outcome H M S F = Raise ValueError.
Proof.
  intros H M S F HH HM HS Hlong. unfold fields_outcome, int_fields.
  destruct (py_int_outcome H HH) as [EH|EH]; rewrite EH; cbn [bind];
    [|reflexivity].
  destruct (py_int_outcome M HM) as [EM|EM]; rewrite EM; cbn [bind];
    [|reflexivity].
  destruct (py_int_outcome S HS) as [ES|ES]; rewrite ES; cbn [bind];
    [|reflexivity].
  destruct Hlong as [L|[L|L]]; apply py_int_long in L; congruence.
Qed.

Lemma fields_outcome_returns : forall H M S F v,
    fields_outcome H M S F = Ok v -> seconds_of_fields H M S F = Ok v.
Proof.
  intros H M S F v. unfold fields_outcome.
  destruct (int_fields H M S); cbn [bind]; [auto | discriminate].
Qed.

(** The value computed from the first match of the pattern. *)
Lemma cvsecs_first_match_value : forall s H M S sep F fi,
    first_match is_sep (add_fraction s) H M S sep F ->
    short_field H -> short_field M -> short_field S ->
    (List.length F <= 308)%nat ->
    int_to_float (3600 * value H + 60 * value M + value S) = Ok fi ->
    cvsecs (PyStr s) = Ok (PyNum (PyFloat (seconds_float fi F))).
Proof.
  intros s H M S sep F fi Hm SH SM SS HF Hi. cbn [cvsecs is_string].
  rewrite (cvsecs_str_first_match s H M S sep F Hm).
  destruct Hm as (pre & rest & _ & HH & HM & HS & _).
  rewrite fields_outcome_short by assumption.
  now rewrite (seconds_of_fields_value H M S F fi HF Hi).
Qed.

(** C1. A text without a timecode is not reported by a typed error: the
    unguarded index [[0]] on the empty list of matches raises [IndexError]
    for ['abc'], and ['01:01:33|5'], whose separator is neither a dot nor a
    comma, is accepted by the class [[,|.]] and converted to [3693.5]. *)
Theorem cvsecs_malformed_text :
  cvsecs (PyStr (str "abc")) = Raise IndexError /\
  cvsecs (PyStr (str "01:01:33|5")) = Ok (PyNum (PyFloat (lit 3693.5))).
Proof. split; vm_compute; reflexivity. Qed.

(** The vertical bar also lets an earlier text win over the first match of
    the documented grammar: here the result comes from ['1:2:3|4'] and not
    from ['5:6:7.8']. *)
Example cvsecs_bar_wins :
  cvsecs (PyStr (str "1:2:3|4 5:6:7.8")) = Ok (PyNum (PyFloat (lit 3723.4))).
Proof. vm_compute. reflexivity. Qed.

(** C2, as stated, fails: a text that matches the grammar, with the value
    [0], and [cvsecs] raises [OverflowError], because the denominator
    [10**309] does not convert to a float. *)
Lemma cvsecs_long_fraction :
  has_match is_dot_or_comma
    (add_fraction (str "0:0:0." ++ repeat "0"%char 309)) /\
  cvsecs (PyStr (str "0:0:0." ++ repeat "0"%char 309)) = Raise OverflowError.
Proof.
  split.
  - exists [], (str "0:0:0." ++ repeat "0"%char 309). split; [reflexivity|].
    exists (str "0"), (str "0"), (str "0"), "."%char, (repeat "0"%char 309), [].
    repeat split; vm_compute; reflexivity.
  - vm_compute. reflexivity.
Qed.

Lemma first_match_documented : forall t H M S sep F,
    contains "|" t = false ->
    first_match is_sep t H M S sep F -> first_match is_dot_or_comma t H M S sep F.
Proof.
  intros t H M S sep F Hb
         (pre & rest & E & HH & HM & HS & HF & Hsep & Hrest & Hleft).
  exists pre, rest. repeat split; auto.
  - rewrite E in Hb. apply contains_suffix, timecode_sep_inside in Hb.
    now apply sep_without_bar.
  - intros pre' r E' Hlen Hm. apply (Hleft pre' r E' Hlen).
    now apply match_at_weaken.
Qed.

(** The integer part, too, has to fit a float. *)
Example cvsecs_large_hours :
  cvsecs (PyStr ("1"%char :: repeat "0"%char 400 ++ str ":0:0.0"))
  = Raise OverflowError.
Proof. vm_compute. reflexivity. Qed.

(** A field of more than 4300 digits is refused by [int], whatever its
    value. *)
Example cvsecs_long_field :
  cvsecs (PyStr (str "0:0:" ++ repeat "0"%char 4301 ++ str ".5"))
  = Raise ValueError.
Proof. vm_compute. reflexivity. Qed.

(** C2, amended. Take a text without a vertical bar whose amended form
    (with ['.0'] appended when it has neither a dot nor a comma) matches the
    grammar. It has a first match, and from the fields [H], [M], [S], [F] of
    the first match [cvsecs] returns [3600*H + 60*M + S + F/10**len(F)]
    computed in binary64, provided [H], [M] and [S] have at most 4300 digits
    each, the fraction has at most 308 digits and the integer part converts
    to a float. With a field [H], [M] or [S] of more than 4300 digits it
    raises [ValueError]; otherwise, with a fraction of more than 308 digits,
    it raises [OverflowError]. *)
Theorem cvsecs_text_value : forall s,
    contains "|" s = false ->
    (has_match is_dot_or_comma (add_fraction s) ->
     exists H M S sep F,
       first_match is_dot_or_comma (add_fraction s) H M S sep F) /\
    (forall H M S sep F fi,
        first_match is_dot_or_comma (add_fraction s) H M S sep F ->
        short_field H -> short_field M -> short_field S ->
        (List.length F <= 308)%nat ->
        int_to_float (3600 * value H + 60 * value M + value S) = Ok fi ->
        cvsecs (PyStr s) = Ok (PyNum (PyFloat (seconds_float fi F)))) /\
    (forall H M S sep F,
        first_match is_dot_or_comma (add_fraction s) H M S sep F ->
        ~ short_field H \/ ~ short_field M \/ ~ short_field S ->
        cvsecs (PyStr s) = Raise ValueError) /\
    (forall H M S sep F,
        first_match is_dot_or_comma (add_fraction s) H M S sep F ->
        short_field H -> short_field M -> short_field S ->
        (309 <= List.length F)%nat ->
        cvsecs (PyStr s) = Raise OverflowError).
Proof.
  intros s Hb. pose proof (add_fraction_without_bar s Hb) as Hb'.
  repeat split.
  - intros Hm. apply has_match_weaken, first_match_exists in Hm
      as (H & M & S & sep & F & Hm).
    exists H, M, S, sep, F. now apply first_match_documented.
  - intros H M S sep F fi Hm SH SM SS HF Hi.
    apply (cvsecs_first_match_value s H M S sep F fi); auto.
    now apply first_match_without_bar.
  - intros H M S sep F Hm Hlong. cbn [cvsecs is_string].
    rewrite (cvsecs_str_first_match s H M S sep F)
      by now apply first_match_without_bar.
    destruct Hm as (pre & rest & _ & HH & HM & HS & _).
    now rewrite fields_outcome_long.
  - intros H M S sep F Hm SH SM SS HF. cbn [cvsecs is_string].
    rewrite (cvsecs_str_first_match s H M S sep F)
      by now apply first_match_without_bar.
    destruct Hm as (pre & rest & _ & HH & HM & HS & _).
    rewrite fields_outcome_short by assumption.
    now rewrite seconds_of_fields_overflow.
Qed.

Lemma cvsecs_text_value_witness :
  cvsecs (PyStr (str "01:01:33")) = Ok (PyNum (PyFloat (lit 3693.0))).
Proof.
  apply (proj1 (proj2 (cvsecs_text_value (str "01:01:33") eq_refl))
           (str "01") (str "01") (str "33") "."%char (str "0") (round_int 3693)).
  - exists [], []. repeat split; try reflexivity.
    intros pre' r _ Hlen. simpl in Hlen. lia.
  - unfold short_field, int_max_str_digits. simpl. lia.
  - unfold short_field, int_max_str_digits. simpl. lia.
  - unfold short_field, int_max_str_digits. simpl. lia.
  - simpl. lia.
  - reflexivity.
Defined.

Lemma match_at_starts_with_digit : forall ok r,
    match_at ok r -> starts_with_digit r = true.
Proof.
  intros ok r (H & M & S & sep & F & rest & -> & HH & _).
  destruct H as [|a H]; [discriminate|].
  simpl in *. now apply andb_true_iff in HH as [Ha _].
Qed.

(** A text that begins with a timecode of the documented grammar is
    matched there by the pattern, with the same fields up to the digits
    that may extend the fraction. *)
Lemma match_at_documented_here : forall r,
    match_at is_dot_or_comma r ->
    exists H M S sep F rest,
      match_here expr r = Some ([H; M; S; F], rest) /\
      r = timecode H M S sep F ++ rest /\ is_dot_or_comma sep = true.
Proof.
  intros r Hm. apply match_at_extend in Hm
    as (H & M & S & sep & F & rest & -> & HH & HM & HS & HF & Hsep & Hrest).
  exists H, M, S, sep, F, rest. repeat split; auto.
  apply match_here_expr_complete; auto using dot_or_comma_sep.
Qed.

(** C8. The result is not always computed from the first match of the
    grammar [(\d+):(\d+):(\d+)[.,](\d+)]: in ['1:2:3|4 5:6:7.8'] the first
    such match is ['5:6:7.8'], worth [18367.8], but the class [[,|.]] of the
    code lets ['1:2:3|4'] match first and [cvsecs] returns [3723.4]. *)
Theorem cvsecs_bar_match_used :
  first_match is_dot_or_comma (add_fraction (str "1:2:3|4 5:6:7.8"))
    (str "5") (str "6") (str "7") "."%char (str "8") /\
  cvsecs (PyStr (str "5:6:7.8")) = Ok (PyNum (PyFloat (lit 18367.8))) /\
  cvsecs (PyStr (str "1:2:3|4 5:6:7.8")) = Ok (PyNum (PyFloat (lit 3723.4))).
Proof.
  split; [|split; vm_compute; reflexivity].
  exists (str "1:2:3|4 "), []. repeat split; try reflexivity.
  intros pre' r E Hlen Hm.
  apply match_at_documented_here in Hm
    as (H & M & S & sep & F & rest & Em & Er & Hsep).
  change (add_fraction (str "1:2:3|4 5:6:7.8"))
    with (str "1:2:3|4 5:6:7.8") in E.
  cbv [str list_ascii_of_string] in E.
  destruct pre' as [|? pre']; cbn [app] in E.
  { subst r. vm_compute in Em. injection Em as <- <- <- <- <-.
    cbv in Er. inversion Er; subst. vm_compute in Hsep. discriminate. }
  injection E as <- E.
  do 7 (destruct pre' as [|? pre']; cbn [app] in E;
        [subst r; vm_compute in Em; discriminate | injection E as <- E]).
  simpl in Hlen. lia.
Qed.

(** C9, as stated, fails: a seconds field of 400 nines is 60 or greater,
    the text matches the grammar, and [cvsecs] raises [OverflowError]
    because the sum of the fields does not fit a float. *)
Lemma cvsecs_huge_seconds_field :
  has_match is_dot_or_comma
    (add_fraction (str "0:0:" ++ repeat "9"%char 400 ++ str ".0")) /\
  60 <= value (repeat "9"%char 400) /\
  cvsecs (PyStr (str "0:0:" ++ repeat "9"%char 400 ++ str ".0"))
  = Raise OverflowError.
Proof.
  split; [|split].
  - exists [], (str "0:0:" ++ repeat "9"%char 400 ++ str ".0").
    split; [reflexivity|].
    exists (str "0"), (str "0"), (repeat "9"%char 400), "."%char, (str "0"), [].
    repeat split; vm_compute; reflexivity.
  - vm_compute. discriminate.
  - vm_compute. reflexivity.
Qed.

(** C9, amended. There is no range check on the fields of a timecode.
    Every text that matches the grammar has a first match of the pattern of
    the code, which is the first match of the grammar when the text has no
    vertical bar. Whatever the values of the minute and second fields of
    that match (60 or more included), the outcome of [cvsecs] is that of
    the sum [3600*H + 60*M + S + F/10**len(F)] of the fields with their
    weights, provided [H], [M] and [S] have at most 4300 digits each; the
    sum is returned, as a float, when the fraction has at most 308 digits
    and the integer part converts to a float. *)
Theorem cvsecs_no_range_check : forall s,
    (has_match is_dot_or_comma (add_fraction s) ->
     exists H M S sep F, first_match is_sep (add_fraction s) H M S sep F) /\
    (contains "|" s = false ->
     forall H M S sep F,
       first_match is_sep (add_fraction s) H M S sep F ->
       first_match is_dot_or_comma (add_fraction s) H M S sep F) /\
    (forall H M S sep F,
        first_match is_sep (add_fraction s) H M S sep F ->
        short_field H -> short_field M -> short_field S ->
        cvsecs (PyStr s) = returned (seconds_of_fields H M S F) /\
        (forall fi,
            (List.length F <= 308)%nat ->
            int_to_float (whole_seconds H M S) = Ok fi ->
            cvsecs (PyStr s) = Ok (PyNum (PyFloat (seconds_float fi F))))).
Proof.
  intros s. split; [|split].
  - intros Hm. now apply first_match_exists, has_match_weaken.
  - intros Hb H M S sep F Hm.
    now apply first_match_documented; [apply add_fraction_without_bar|].
  - intros H M S sep F Hm SH SM SS. split.
    + cbn [cvsecs is_string].
      rewrite (cvsecs_str_first_match s H M S sep F Hm).
      destruct Hm as (pre & rest & _ & HH & HM & HS & _).
      now rewrite fields_outcome_short by assumption.
    + intros fi HF Hi.
      now apply (cvsecs_first_match_value s H M S sep F fi).
Qed.

Lemma cvsecs_no_range_check_witness :
  60 <= value (str "99") /\
  cvsecs (PyStr (str "00:99:99.0")) = Ok (PyNum (PyFloat (lit 6039.0))).
Proof.
  split; [vm_compute; discriminate|].
  apply (proj2 (proj2 (proj2 (cvsecs_no_range_check (str "00:99:99.0")))
                  (str "00") (str "99") (str "99") "."%char (str "0")
                  ltac:(exists [], []; repeat split; try reflexivity;
                        intros pre' r _ Hlen; simpl in Hlen; lia)
                  ltac:(unfold short_field, int_max_str_digits; simpl; lia)
                  ltac:(unfold short_field, int_max_str_digits; simpl; lia)
                  ltac:(unfold short_field, int_max_str_digits; simpl; lia))
           (round_int 6039)).
  - simpl. lia.
  - reflexivity.
Defined.

(** ** cvsecs on tuples and numbers *)

Lemma int_to_float_60 : int_to_float 60 = Ok (round_int 60).
Proof. vm_compute. reflexivity. Qed.

Lemma int_to_float_0 : int_to_float 0 = Ok (S754_zero false).
Proof. reflexivity. Qed.

Lemma same_outcome_refl : forall r, same_outcome r r.
Proof. intros [a|e]; simpl; [left|]; reflexivity. Qed.

(** Adding to [0.0] what adding to [x] gives, up to the sign of a zero. *)
Lemma add_after_zero : forall x s,
    same_outcome (py_add (PyFloat (fadd (S754_zero false) x)) s)
                 (py_add (PyFloat x) s).
Proof.
  intros x s.
  destruct x as [[|]| | |]; try apply same_outcome_refl.
  change (fadd (S754_zero false) (S754_zero true)) with (S754_zero false).
  destruct s as [z|f]; unfold py_add, as_float; cbn [bind].
  - unfold int_to_float. destruct (round_int z) as [[|]|[|]| |[|] ? ?];
      simpl; try reflexivity; first [left; reflexivity | right; eauto].
  - destruct f as [[|]|[|]| |[|] ? ?]; simpl;
      first [left; reflexivity | right; eauto].
Qed.

(** C4. On a pair [(m, s)] cvsecs returns [60*m + s] and on a triple
    [(h, m, s)] it returns [3600*h + 60*m + s], in Python's arithmetic (the
    pair goes through [3600*0 + 60*m + s], which can only change the sign of
    a zero); on integers these are the exact integers. *)
Theorem cvsecs_tuple_value : forall h m s,
    (exists r, cvsecs (PyTuple [m; s]) = returned r /\
               same_outcome r (minutes_seconds m s)) /\
    cvsecs (PyTuple [h; m; s]) = returned (hours_minutes_seconds h m s) /\
    (forall i j, cvsecs (PyTuple [PyInt i; PyInt j])
                 = Ok (PyNum (PyInt (60 * i + j)))) /\
    (forall i j k, cvsecs (PyTuple [PyInt i; PyInt j; PyInt k])
                   = Ok (PyNum (PyInt (3600 * i + 60 * j + k)))).
Proof.
  intros h m s. repeat split; try reflexivity.
  exists (cvsecs_tuple [m; s]). split; [reflexivity|].
  unfold cvsecs_tuple, minutes_seconds.
  destruct m as [i|f].
  - cbn [py_mul bind py_add]. apply same_outcome_refl.
  - cbn [py_mul bind as_float]. rewrite int_to_float_60. cbn [bind].
    change (3600 * 0) with 0. unfold py_add at 1. cbn [as_float].
    rewrite int_to_float_0. cbn [bind]. apply add_after_zero.
Qed.

(** C7. Anything that is neither a string nor a tuple, a number in
    particular, is returned unchanged. *)
Theorem cvsecs_identity : forall v,
    is_string v = false -> (forall items, v <> PyTuple items) ->
    cvsecs v = Ok v.
Proof.
  intros v Hs Ht. destruct v; try reflexivity.
  - discriminate.
  - now elim (Ht items).
Qed.

Lemma cvsecs_identity_witness :
  cvsecs (PyNum (PyFloat (lit 15.4))) = Ok (PyNum (PyFloat (lit 15.4))).
Proof.
  apply cvsecs_identity; [reflexivity | discriminate].
Defined.

(** ** The registry *)

Lemma has_codec_iff : forall c i,
    has_codec c i = true <-> exists l, codec i = Some l /\ In c l.
Proof.
  intros c i. unfold has_codec. destruct (codec i) as [l|].
  - rewrite existsb_exists. split.
    + intros (x & Hin & Hx). apply String.eqb_eq in Hx. subst. eauto.
    + intros (l' & E & Hin). inversion E; subst. exists c.
      split; [exact Hin | apply String.eqb_refl].
  - split; [discriminate | intros (l & E & _); discriminate].
Qed.

(** The lookup returns the first entry, in the order of iteration, whose
    codec list has the codec. *)
Lemma find_extension_in_first : forall items c ext,
    find_extension_in items c = Ok ext <->
    exists l1 i l2,
      items = l1 ++ (ext, i) :: l2 /\ has_codec c i = true /\
      forall e, In e l1 -> has_codec c (snd e) = false.
Proof.
  induction items as [|[ext0 i0] items IH]; intros c ext; simpl.
  - split; [discriminate|]. intros (l1 & i & l2 & E & _).
    destruct l1; discriminate.
  - destruct (has_codec c i0) eqn:E0; split.
    + intros E. inversion E; subst. exists [], i0, items.
      repeat split; auto. intros e [].
    + intros (l1 & i & l2 & E & Hi & Hl1). destruct l1 as [|e l1].
      * now inversion E.
      * inversion E; subst. specialize (Hl1 (ext0, i0) (or_introl eq_refl)).
        simpl in Hl1. congruence.
    + intros E. apply IH in E as (l1 & i & l2 & -> & Hi & Hl1).
      exists ((ext0, i0) :: l1), i, l2. repeat split; auto.
      intros e [<-|Hin]; auto.
    + intros (l1 & i & l2 & E & Hi & Hl1). destruct l1 as [|e l1].
      * inversion E; subst. congruence.
      * inversion E; subst. apply IH. exists l1, i, l2.
        repeat split; auto. intros e He. apply Hl1. now right.
Qed.

(** It raises [ValueError] exactly when no entry has the codec. *)
Lemma find_extension_in_none : forall items c,
    find_extension_in items c = Raise ValueError <->
    forall e, In e items -> has_codec c (snd e) = false.
Proof.
  induction items as [|[ext0 i0] items IH]; intros c; simpl.
  - split; [intros _ e [] | reflexivity].
  - destruct (has_codec c i0) eqn:E0; split.
    + discriminate.
    + intros H. specialize (H (ext0, i0) (or_introl eq_refl)). simpl in H.
      congruence.
    + intros H e [<-|Hin]; [exact E0 | now apply IH].
    + intros H. apply IH. intros e He. apply H. now right.
Qed.

(** When the entries that have the codec all carry the same extension, the
    order of iteration does not change the result. *)
Lemma find_extension_in_perm : forall l1 l2 c,
    Permutation l1 l2 ->
    (forall e1 e2, In e1 l1 -> In e2 l1 ->
                   has_codec c (snd e1) = true -> has_codec c (snd e2) = true ->
                   fst e1 = fst e2) ->
    find_extension_in l1 c = find_extension_in l2 c.
Proof.
  intros l1 l2 c P. induction P as [|[x i] l l' P IH|[x i] [y j] l|l l' l'' P1 IH1 P2 IH2];
    intros Huniq; simpl.
  - reflexivity.
  - destruct (has_codec c i); [reflexivity|]. apply IH.
    intros e1 e2 H1 H2. apply Huniq; now right.
  - destruct (has_codec c i) eqn:Ei, (has_codec c j) eqn:Ej; try reflexivity.
    f_equal. apply (Huniq (y, j) (x, i)); simpl; auto.
  - rewrite IH1 by exact Huniq. apply IH2.
    intros e1 e2 H1 H2.
    apply Huniq; [exact (Permutation_in _ (Permutation_sym P1) H1)
                 | exact (Permutation_in _ (Permutation_sym P1) H2)].
Qed.

(** No codec name is listed by two entries of the registry. *)
Lemma extensions_dict_codecs_disjoint : forall c e1 e2,
    In e1 extensions_dict -> In e2 extensions_dict ->
    has_codec c (snd e1) = true -> has_codec c (snd e2) = true ->
    e1 = e2.
Proof.
  intros c e1 e2 H1 H2 C1 C2.
  unfold extensions_dict in H1, H2. simpl in H1, H2.
  repeat (destruct H1 as [<-|H1]); try contradiction;
    cbn in C1; try discriminate;
    repeat (apply orb_true_iff in C1 as [C1|C1]); try discriminate;
    apply String.eqb_eq in C1; subst c;
    repeat (destruct H2 as [<-|H2]); try contradiction;
    first [reflexivity | discriminate].
Qed.

Lemma find_extension_any_order : forall l c,
    Permutation extensions_dict l -> find_extension_in l c = find_extension c.
Proof.
  intros l c P. symmetry. apply find_extension_in_perm; [exact P|].
  intros e1 e2 H1 H2 C1 C2.
  now rewrite (extensions_dict_codecs_disjoint c e1 e2 H1 H2 C1 C2).
Qed.

(** C5. Whatever the order in which the registry is iterated, the lookup
    returns the first extension in that order whose codec list has the
    codec, and raises [ValueError] when no entry has it; ['libx264'] gives
    ['mp4'] and ['no-such-codec'] is an error. *)
Theorem find_extension_first_match : forall items c,
    (forall ext,
        find_extension_in items c = Ok ext <->
        exists l1 i l2,
          items = l1 ++ (ext, i) :: l2 /\
          (exists l, codec i = Some l /\ In c l) /\
          forall e, In e l1 -> ~ exists l, codec (snd e) = Some l /\ In c l) /\
    (find_extension_in items c = Raise ValueError <->
     forall e, In e items -> ~ exists l, codec (snd e) = Some l /\ In c l) /\
    find_extension "libx264" = Ok "mp4"%string /\
    find_extension "no-such-codec" = Raise ValueError /\
    (Permutation extensions_dict items ->
     find_extension_in items "libx264" = Ok "mp4"%string /\
     find_extension_in items "no-such-codec" = Raise ValueError).
Proof.
  intros items c.
  assert (forall e : string * infos, has_codec c (snd e) = false <->
                    ~ exists l, codec (snd e) = Some l /\ In c l) as Hneg.
  { intros e. rewrite <- has_codec_iff. destruct (has_codec c (snd e)); split;
      congruence. }
  repeat split; try reflexivity.
  - intros E. apply find_extension_in_first in E as (l1 & i & l2 & E & Hi & Hl1).
    exists l1, i, l2. repeat split; auto.
    + now apply has_codec_iff.
    + intros e He. apply Hneg. auto.
  - intros (l1 & i & l2 & E & Hi & Hl1). apply find_extension_in_first.
    exists l1, i, l2. repeat split; auto.
    + now apply has_codec_iff.
    + intros e He. apply Hneg. auto.
  - intros E e He. apply Hneg. revert e He. now apply find_extension_in_none.
  - intros H. apply find_extension_in_none. intros e He. apply Hneg. auto.
  - now rewrite find_extension_any_order.
  - now rewrite find_extension_any_order.
Qed.

(** C10. In the registry as shipped no codec name is listed by two
    entries, so for every codec name the lookup gives the same result under
    any two orders of iteration. *)
Theorem find_extension_order_independent : forall l1 l2 c,
    Permutation extensions_dict l1 -> Permutation extensions_dict l2 ->
    (forall e1 e2, In e1 extensions_dict -> In e2 extensions_dict ->
                   (exists l, codec (snd e1) = Some l /\ In c l) ->
                   (exists l, codec (snd e2) = Some l /\ In c l) ->
                   e1 = e2) /\
    find_extension_in l1 c = find_extension_in l2 c.
Proof.
  intros l1 l2 c P1 P2. split.
  - intros e1 e2 H1 H2 C1 C2. apply has_codec_iff in C1, C2.
    exact (extensions_dict_codecs_disjoint c e1 e2 H1 H2 C1 C2).
  - now rewrite (find_extension_any_order l1 c P1),
      (find_extension_any_order l2 c P2).
Qed.

Lemma find_extension_order_independent_witness :
  find_extension_in extensions_dict "libvpx"
  = find_extension_in (rev extensions_dict) "libvpx".
Proof.
  apply (find_extension_order_independent extensions_dict (rev extensions_dict)
           "libvpx" (Permutation_refl _) (Permutation_rev _)).
Defined.

(** ** subprocess_call *)

(** Decoding fails in one way only. *)
Lemma decode_utf8_raises : forall b e,
    decode_utf8 b = Raise e -> e = UnicodeDecodeError.
Proof.
  intros b. remember (List.length b) as n eqn:Hn.
  revert b Hn. induction n as [n IH] using lt_wf_ind. intros b Hn e.
  assert (forall r e', (List.length r < n)%nat -> decode_utf8 r = Raise e' ->
                       e' = UnicodeDecodeError) as Hrec.
  { intros r e' Hr. exact (IH _ Hr r eq_refl e'). }
  destruct b as [|b0 r0]; [discriminate|]. simpl in Hn. cbn [decode_utf8].
  destruct (Byte.to_N b0 <? 128)%N.
  { destruct (decode_utf8 r0) eqn:E; cbn [bind]; [discriminate|].
    intros H; inversion H; subst. apply (Hrec r0); [lia | exact E]. }
  destruct ((194 <=? Byte.to_N b0) && (Byte.to_N b0 <=? 223))%N.
  { destruct r0 as [|b1 r1]; [intros H; now inversion H|].
    destruct (continuation (Byte.to_N b1)); [|intros H; now inversion H].
    destruct (decode_utf8 r1) eqn:E; cbn [bind]; [discriminate|].
    intros H; inversion H; subst. apply (Hrec r1); [simpl in *; lia | exact E]. }
  destruct ((224 <=? Byte.to_N b0) && (Byte.to_N b0 <=? 239))%N.
  { destruct r0 as [|b1 [|b2 r2]]; try (intros H; now inversion H).
    match goal with |- (if ?c then _ else _) = _ -> _ => destruct c end;
      [|intros H; now inversion H].
    destruct (decode_utf8 r2) eqn:E; cbn [bind]; [discriminate|].
    intros H; inversion H; subst. apply (Hrec r2); [simpl in *; lia | exact E]. }
  destruct ((240 <=? Byte.to_N b0) && (Byte.to_N b0 <=? 244))%N.
  { destruct r0 as [|b1 [|b2 [|b3 r3]]]; try (intros H; now inversion H).
    match goal with |- (if ?c then _ else _) = _ -> _ => destruct c end;
      [|intros H; now inversion H].
    destruct (decode_utf8 r3) eqn:E; cbn [bind]; [discriminate|].
    intros H; inversion H; subst. apply (Hrec r3); [simpl in *; lia | exact E]. }
  intros H; now inversion H.
Qed.

(** Bytes below 128 decode to themselves. *)
Lemma decode_utf8_ascii : forall b,
    forallb (fun x => (Byte.to_N x <? 128)%N) b = true ->
    decode_utf8 b = Ok (map Byte.to_N b).
Proof.
  induction b as [|b0 r IH]; intros H; [reflexivity|].
  simpl in H. apply andb_true_iff in H as [H0 Hr].
  cbn [decode_utf8]. rewrite H0, (IH Hr). reflexivity.
Qed.

(** C3. A nonzero exit code does not always end in [IOError]: when the
    child exits with code 1 after writing the byte [0xFF], which is not
    UTF-8, the strict [err.decode('utf8')] inside the [raise] statement fails
    first and what leaves [subprocess_call] is [UnicodeDecodeError]; the
    error text has been written by then. *)
Theorem subprocess_call_undecodable :
  returncode (child (host_exiting 1 [Byte.xff]) ["ffmpeg"%string]) = 1 /\
  snd (subprocess_call (host_exiting 1 [Byte.xff]) ["ffmpeg"%string] true true [])
  = Raise UnicodeDecodeError /\
  In error_line
    (fst (subprocess_call (host_exiting 1 [Byte.xff]) ["ffmpeg"%string]
            true true [])).
Proof. repeat split. vm_compute. auto. Qed.

Example subprocess_call_boom :
  snd (subprocess_call (host_exiting 1 ["b"; "o"; "o"; "m"]%byte)
         ["ffmpeg"%string; "boom"%string] true true [])
  = Raise (IOError [98; 111; 111; 109]%N).
Proof. reflexivity. Qed.

(** ** Signs in binary64 arithmetic *)

Lemma ge_zero_float : forall f, ge_zero (PyFloat f) = float_nonneg f.
Proof. intros [[|]|[|]| |[|] m e]; reflexivity. Qed.

Lemma iter_pos_invariant : forall (A : Type) (P : A -> Prop) (f : A -> A),
    (forall x, P x -> P (f x)) ->
    forall n x, P x -> P (iter_pos f n x).
Proof.
  intros A P f Hf. induction n as [n IH|n IH|]; intros x Hx; simpl; auto.
Qed.

Lemma shr_1_nonneg : forall mrs, 0 <= shr_m mrs -> 0 <= shr_m (shr_1 mrs).
Proof.
  intros [m r s] H. simpl in H.
  destruct m as [|[p|p|]|p]; simpl; lia.
Qed.

Lemma shr_nonneg : forall mrs e n,
    0 <= shr_m mrs -> 0 <= shr_m (fst (shr mrs e n)).
Proof.
  intros mrs e [|p|p] H; simpl; auto.
  apply (iter_pos_invariant _ (fun x => 0 <= shr_m x)); auto using shr_1_nonneg.
Qed.

Lemma shr_fexp_nonneg : forall m e l,
    0 <= m -> 0 <= shr_m (fst (shr_fexp prec emax m e l)).
Proof.
  intros m e l H. unfold shr_fexp. apply shr_nonneg.
  destruct l as [|[| |]]; exact H.
Qed.

Lemma round_nearest_even_nonneg : forall m l,
    0 <= m -> 0 <= round_nearest_even m l.
Proof.
  intros m [|[| |]] H; simpl; try destruct (Z.even m); lia.
Qed.

(** Rounding a non-negative significand keeps the sign it is given and
    never yields a NaN. *)
Lemma binary_round_aux_sign : forall s m e l,
    0 <= m ->
    match binary_round_aux prec emax s m e l with
    | S754_nan => False
    | S754_zero s' | S754_infinity s' | S754_finite s' _ _ => s' = s
    end.
Proof.
  intros s m e l Hm. unfold binary_round_aux.
  pose proof (shr_fexp_nonneg m e l Hm) as H1.
  destruct (shr_fexp prec emax m e l) as [mrs' e'].
  pose proof (shr_fexp_nonneg _ e' loc_Exact
                (round_nearest_even_nonneg _ (loc_of_shr_record mrs') H1)) as H2.
  destruct (shr_fexp prec emax _ e' loc_Exact) as [mrs'' e''].
  simpl in H2. destruct (shr_m mrs'') as [|p|p]; [reflexivity | | lia].
  destruct (e'' <=? emax - prec); reflexivity.
Qed.

Lemma binary_round_aux_nonneg : forall m e l,
    0 <= m -> float_nonneg (binary_round_aux prec emax false m e l) = true.
Proof.
  intros m e l Hm. pose proof (binary_round_aux_sign false m e l Hm) as H.
  destruct (binary_round_aux prec emax false m e l); simpl; subst;
    [reflexivity | reflexivity | contradiction | reflexivity].
Qed.

Lemma round_int_nonneg : forall z, 0 <= z -> float_nonneg (round_int z) = true.
Proof.
  intros [|p|p] Hz; [reflexivity | | lia].
  unfold round_int, binary_normalize, binary_round.
  destruct (shl_align p 0 _) as [mz ez].
  apply binary_round_aux_nonneg. lia.
Qed.

Lemma fadd_nonneg : forall x y,
    float_nonneg x = true -> float_nonneg y = true ->
    float_nonneg (fadd x y) = true.
Proof.
  intros [[|]|[|]| |[|] mx ex] [[|]|[|]| |[|] my ey] Hx Hy;
    try discriminate; try reflexivity.
  unfold fadd, SFadd, binary_normalize. cbn [cond_Zopp].
  destruct (shl_align mx ex _) as [ax ex'], (shl_align my ey _) as [ay ey'].
  cbn [fst Z.add]. unfold binary_round.
  destruct (shl_align _ _ _) as [mz ez]. apply binary_round_aux_nonneg. lia.
Qed.

Lemma fmul_nonneg : forall mx ex y,
    float_nonneg y = true ->
    float_nonneg (fmul (S754_finite false mx ex) y) = true.
Proof.
  intros mx ex [[|]|[|]| |[|] my ey] Hy; try discriminate; try reflexivity.
  unfold fmul, SFmul. cbn [xorb]. apply binary_round_aux_nonneg. lia.
Qed.

Lemma fdiv_nonneg : forall x my ey,
    float_nonneg x = true ->
    float_nonneg (fdiv x (S754_finite false my ey)) = true.
Proof.
  intros [[|]|[|]| |[|] mx ex] my ey Hx; try discriminate; try reflexivity.
  unfold fdiv, SFdiv, SFdiv_core_binary. cbn [xorb].
  match goal with
  | |- context [Z.div_eucl ?a ?b] =>
      assert (0 <= a) as Ha;
      [| pose proof (Z.div_pos a b Ha ltac:(lia)) as Hq;
         unfold Z.div in Hq; destruct (Z.div_eucl a b) as [q r] ]
  end.
  - match goal with
    | |- 0 <= match ?s with _ => _ end => destruct s
    end; try lia. apply Z.shiftl_nonneg. lia.
  - simpl in Hq. now apply binary_round_aux_nonneg.
Qed.

Lemma int_to_float_nonneg : forall z f,
    0 <= z -> int_to_float z = Ok f -> float_nonneg f = true.
Proof.
  intros z f Hz. unfold int_to_float.
  pose proof (round_int_nonneg z Hz) as H.
  destruct (round_int z); intros E; inversion E; subst; exact H.
Qed.

Lemma as_float_nonneg : forall a f,
    ge_zero a = true -> as_float a = Ok f -> float_nonneg f = true.
Proof.
  intros [z|x] f Ha E; simpl in *.
  - apply (int_to_float_nonneg z); [now apply Z.leb_le | exact E].
  - inversion E; subst. now rewrite <- ge_zero_float.
Qed.

Lemma py_add_nonneg : forall a b c,
    ge_zero a = true -> ge_zero b = true -> py_add a b = Ok c ->
    ge_zero c = true.
Proof.
  intros a b c Ha Hb E.
  assert (forall x y, as_float a = Ok x -> as_float b = Ok y ->
                      ge_zero (PyFloat (fadd x y)) = true) as Hf.
  { intros x y Ex Ey. rewrite ge_zero_float.
    apply fadd_nonneg; eauto using as_float_nonneg. }
  unfold py_add in E.
  destruct a as [i|x], b as [j|y]; cbn [as_float bind] in E.
  - inversion E; subst. simpl in *. apply Z.leb_le in Ha, Hb.
    apply Z.leb_le. lia.
  - destruct (int_to_float i) as [x'|] eqn:Ex; cbn [bind] in E; [|discriminate].
    inversion E; subst. now apply Hf.
  - destruct (int_to_float j) as [y'|] eqn:Ey; cbn [bind] in E; [|discriminate].
    inversion E; subst. now apply Hf.
  - inversion E; subst. now apply Hf.
Qed.

(** Multiplication by a positive integer constant that converts to a
    finite float, as [3600] and [60] do. *)
Lemma py_mul_nonneg : forall k m e b c,
    0 <= k -> int_to_float k = Ok (S754_finite false m e) ->
    ge_zero b = true -> py_mul (PyInt k) b = Ok c -> ge_zero c = true.
Proof.
  intros k m e [j|y] c Hk Ek Hb E; unfold py_mul in E.
  - inversion E; subst. cbn [ge_zero] in *. apply Z.leb_le in Hb.
    apply Z.leb_le. now apply Z.mul_nonneg_nonneg.
  - cbn [as_float] in E. rewrite Ek in E. cbn [bind] in E.
    inversion E; subst. rewrite ge_zero_float in *. now apply fmul_nonneg.
Qed.

Lemma decimal_value_nonneg : forall s acc,
    forallb is_digit s = true -> 0 <= acc -> 0 <= decimal_value acc s.
Proof.
  induction s as [|c s IH]; intros acc Hs Hacc; cbn [decimal_value];
    [exact Hacc|].
  cbn [forallb] in Hs. apply andb_true_iff in Hs as [Hc Hs].
  apply IH; [exact Hs|].
  unfold is_digit in Hc. cbv zeta in Hc. apply andb_true_iff in Hc as [Hc _].
  apply Nat.leb_le in Hc. unfold digit_value. lia.
Qed.

Lemma value_nonneg : forall g, all_digits g = true -> 0 <= value g.
Proof.
  intros g Hg. apply all_digits_inv in Hg as [_ Hg].
  apply decimal_value_nonneg; [exact Hg | lia].
Qed.

Lemma seconds_of_fields_nonneg : forall H M S F v,
    all_digits H = true -> all_digits M = true -> all_digits S = true ->
    all_digits F = true ->
    seconds_of_fields H M S F = Ok v -> ge_zero v = true.
Proof.
  intros H M S F v HH HM HS HF E.
  pose proof (value_nonneg H HH). pose proof (value_nonneg M HM).
  pose proof (value_nonneg S HS). pose proof (value_nonneg F HF).
  unfold seconds_of_fields, float_truediv in E. cbn [as_float] in E.
  assert (0 <= 10 ^ Z.of_nat (List.length F)) as Hp by (apply Z.pow_nonneg; lia).
  pose proof (round_int_nonneg _ Hp) as Hd.
  unfold int_to_float in E at 1.
  destruct (round_int (10 ^ Z.of_nat (List.length F))) as [s|s| |s m e];
    cbn [bind is_zero] in E; try discriminate.
  destruct s; [discriminate|].
  apply py_add_nonneg in E; auto.
  - cbn [ge_zero]. apply Z.leb_le. lia.
  - rewrite ge_zero_float. apply fdiv_nonneg. now apply round_int_nonneg.
Qed.

Lemma int_to_float_3600 :
  exists m e, int_to_float 3600 = Ok (S754_finite false m e).
Proof. vm_compute. eauto. Qed.

Lemma int_to_float_60_finite :
  exists m e, int_to_float 60 = Ok (S754_finite false m e).
Proof. vm_compute. eauto. Qed.

Lemma cvsecs_tuple_nonneg : forall items v,
    Forall (fun a => ge_zero a = true) items ->
    cvsecs_tuple items = Ok v -> ge_zero v = true.
Proof.
  intros items v Hall E.
  destruct int_to_float_3600 as (m1 & e1 & K1).
  destruct int_to_float_60_finite as (m2 & e2 & K2).
  destruct items as [|t0 [|t1 [|t2 [|t3 items]]]]; try discriminate;
    unfold cvsecs_tuple in E.
  - inversion Hall as [|? ? H0 Hall1]; subst.
    inversion Hall1 as [|? ? H1 _]; subst.
    change (py_mul (PyInt 3600) (PyInt 0)) with (Ok (PyInt 0)) in E.
    cbn [bind] in E.
    destruct (py_mul (PyInt 60) t0) as [b|] eqn:Eb; cbn [bind] in E; [|discriminate].
    destruct (py_add (PyInt 0) b) as [c|] eqn:Ec; cbn [bind] in E; [|discriminate].
    apply (py_mul_nonneg 60 m2 e2) in Eb; auto; try lia.
    apply py_add_nonneg in Ec; auto.
    now apply py_add_nonneg in E.
  - inversion Hall as [|? ? H0 Hall1]; subst.
    inversion Hall1 as [|? ? H1 Hall2]; subst.
    inversion Hall2 as [|? ? H2 _]; subst.
    destruct (py_mul (PyInt 3600) t0) as [a|] eqn:Ea; cbn [bind] in E; [|discriminate].
    destruct (py_mul (PyInt 60) t1) as [b|] eqn:Eb; cbn [bind] in E; [|discriminate].
    destruct (py_add a b) as [c|] eqn:Ec; cbn [bind] in E; [|discriminate].
    apply (py_mul_nonneg 3600 m1 e1) in Ea; auto; try lia.
    apply (py_mul_nonneg 60 m2 e2) in Eb; auto; try lia.
    apply py_add_nonneg in Ec; auto.
    now apply py_add_nonneg in E.
Qed.

(** C6, as stated, fails: a pair is a well-formed input and its components
    may be negative; the result is then negative. *)
Lemma cvsecs_negative_pair :
  cvsecs (PyTuple [PyInt 0; PyInt (-1)]) = Ok (PyNum (PyInt (-1))) /\
  ge_zero (PyInt (-1)) = false.
Proof. split; reflexivity. Qed.

(** C6, amended. On a text that matches the timecode grammar, and on a
    pair or a triple whose components are non-negative, the value that
    [cvsecs] returns is a number that is non-negative. *)
Theorem cvsecs_nonnegative : forall time r,
    nonneg_input time -> cvsecs time = Ok r ->
    exists v, r = PyNum v /\ ge_zero v = true.
Proof.
  intros [s|items|n|b|] r Hin E; simpl in Hin; try contradiction;
    cbn [cvsecs is_string] in E.
  - destruct (cvsecs_str s) as [v|] eqn:Ev; cbn [bind] in E; [|discriminate].
    inversion E; subst. exists v. split; [reflexivity|].
    apply has_match_weaken, first_match_exists in Hin
      as (H & M & S & sep & F & Hm).
    rewrite (cvsecs_str_first_match s H M S sep F Hm) in Ev.
    apply fields_outcome_returns in Ev.
    destruct Hm as (pre & rest & _ & HH & HM & HS & HF & _).
    now apply (seconds_of_fields_nonneg H M S F).
  - destruct (cvsecs_tuple items) as [v|] eqn:Ev; cbn [bind] in E; [|discriminate].
    inversion E; subst. exists v. split; [reflexivity|].
    destruct Hin as [_ Hall]. now apply (cvsecs_tuple_nonneg items).
Qed.

Lemma cvsecs_nonnegative_witness :
  exists v, PyNum (PyFloat (lit 81.5)) = PyNum v /\ ge_zero v = true.
Proof.
  apply (cvsecs_nonnegative (PyTuple [PyInt 1; PyFloat (lit 21.5)])).
  - split; [left; reflexivity|]. repeat constructor.
  - vm_compute. reflexivity.
Defined.

(** * Further properties of cvsecs *)

Lemma has_match_decidable : forall t,
    has_match is_sep t \/ ~ has_match is_sep t.
Proof.
  induction t as [|a t IH].
  - right. intros (pre & r & E & Hm). destruct pre; [|discriminate].
    simpl in E. subst r. apply match_at_starts_with_digit in Hm. discriminate.
  - destruct (match_here expr (a :: t)) as [x|] eqn:Em.
    + left. exists [], (a :: t). split; [reflexivity|].
      apply match_here_expr_iff. now rewrite Em.
    + destruct IH as [(pre & r & E & Hm)|Hno].
      * left. exists (a :: pre), r. split; [now rewrite E | exact Hm].
      * right. intros (pre & r & E & Hm). destruct pre as [|b pre].
        -- simpl in E. subst r. apply match_here_expr_iff in Hm.
           now rewrite Em in Hm.
        -- inversion E; subst. apply Hno. now exists pre, r.
Qed.

Lemma int_to_float_raises : forall z e,
    int_to_float z = Raise e -> e = OverflowError.
Proof.
  intros z e. unfold int_to_float.
  destruct (round_int z); intros H; now inversion H.
Qed.

(** The arithmetic on the fields gives a float or overflows. *)
Lemma seconds_of_fields_outcome : forall H M S F,
    seconds_of_fields H M S F = Raise OverflowError \/
    exists f, seconds_of_fields H M S F = Ok (PyFloat f).
Proof.
  intros H M S F.
  destruct (Nat.le_gt_cases (List.length F) 308) as [HF|HF].
  - destruct (int_to_float (whole_seconds H M S)) as [fi|e] eqn:Ei.
    + right. exists (seconds_float fi F). now apply seconds_of_fields_value.
    + left. apply int_to_float_raises in Ei as E. subst e.
      unfold seconds_of_fields, float_truediv, as_float, int_to_float at 1.
      destruct (pow10_converts _ HF) as (s & m & e & ->).
      cbn [bind is_zero]. unfold py_add, as_float.
      unfold whole_seconds in Ei. now rewrite Ei.
  - left. now apply seconds_of_fields_overflow.
Qed.

(** What [cvsecs] does with the fields of a match: [int] refuses a field,
    or the arithmetic overflows, or the result is a float. *)
Lemma fields_outcome_cases : forall H M S F,
    all_digits H = true -> all_digits M = true -> all_digits S = true ->
    fields_outcome H M S F = Raise ValueError \/
    fields_outcome H M S F = Raise OverflowError \/
    exists f, fields_outcome H M S F = Ok (PyFloat f).
Proof.
  intros H M S F HH HM HS.
  destruct (short_field_decidable H) as [SH|LH];
    [|left; apply fields_outcome_long; auto].
  destruct (short_field_decidable M) as [SM|LM];
    [|left; apply fields_outcome_long; auto].
  destruct (short_field_decidable S) as [SS|LS];
    [|left; apply fields_outcome_long; auto].
  right. rewrite fields_outcome_short by assumption.
  apply seconds_of_fields_outcome.
Qed.

(** A text makes [cvsecs] raise [IndexError] exactly when the pattern
    matches nowhere in it (once ['.0'] has been appended to a text with
    neither a comma nor a dot). *)
Theorem cvsecs_index_error_iff : forall s,
    cvsecs (PyStr s) = Raise IndexError <-> ~ has_match is_sep (add_fraction s).
Proof.
  intros s. split; [|apply cvsecs_unmatched_text].
  intros E Hm. apply first_match_exists in Hm as (H & M & S & sep & F & Hm).
  cbn [cvsecs is_string] in E.
  rewrite (cvsecs_str_first_match s H M S sep F Hm) in E.
  destruct Hm as (pre & rest & _ & HH & HM & HS & _).
  destruct (fields_outcome_cases H M S F HH HM HS) as [E'|[E'|(f & E')]];
    rewrite E' in E; discriminate.
Qed.

(** On a text [cvsecs] has four outcomes only: [IndexError] (no match),
    [ValueError] (a field too long for [int]), [OverflowError], or a float;
    it never returns an integer and raises no other error. *)
Theorem cvsecs_text_outcomes : forall s,
    cvsecs (PyStr s) = Raise IndexError \/
    cvsecs (PyStr s) = Raise ValueError \/
    cvsecs (PyStr s) = Raise OverflowError \/
    exists f, cvsecs (PyStr s) = Ok (PyNum (PyFloat f)).
Proof.
  intros s. destruct (has_match_decidable (add_fraction s)) as [Hm|Hno].
  - right. apply first_match_exists in Hm as (H & M & S & sep & F & Hm).
    cbn [cvsecs is_string].
    rewrite (cvsecs_str_first_match s H M S sep F Hm).
    destruct Hm as (pre & rest & _ & HH & HM & HS & _).
    destruct (fields_outcome_cases H M S F HH HM HS) as [E|[E|(f & E)]];
      rewrite E.
    + left. reflexivity.
    + right. left. reflexivity.
    + right. right. exists f. reflexivity.
  - left. now apply cvsecs_unmatched_text.
Qed.

Lemma occurrences_app : forall c s1 s2,
    occurrences c (s1 ++ s2) = (occurrences c s1 + occurrences c s2)%nat.
Proof.
  intros c s1 s2. unfold occurrences. now rewrite filter_app, length_app.
Qed.

Lemma occurrences_cons : forall c a s,
    occurrences c (a :: s)
    = ((if Ascii.eqb c a then 1 else 0) + occurrences c s)%nat.
Proof.
  intros c a s. unfold occurrences. cbn [filter].
  destruct (Ascii.eqb c a); reflexivity.
Qed.

Lemma occurrences_add_fraction : forall s,
    occurrences ":" (add_fraction s) = occurrences ":" s.
Proof.
  intros s. unfold add_fraction.
  destruct (negb (contains "," s) && negb (contains "." s)); [|reflexivity].
  rewrite occurrences_app. change (occurrences ":" (str ".0")) with 0%nat. lia.
Qed.

Lemma match_at_two_colons : forall ok t,
    match_at ok t -> (2 <= occurrences ":" t)%nat.
Proof.
  intros ok t (H & M & S & sep & F & rest & -> & _). unfold timecode.
  repeat (rewrite <- app_assoc; cbn [app]).
  rewrite occurrences_app, occurrences_cons, occurrences_app, occurrences_cons.
  rewrite Ascii.eqb_refl. lia.
Qed.

(** The form [MM:SS] is not accepted: a text with fewer than two colons
    makes [cvsecs] raise [IndexError]. *)
Theorem cvsecs_needs_two_colons : forall s,
    (occurrences ":" s < 2)%nat -> cvsecs (PyStr s) = Raise IndexError.
Proof.
  intros s Hc. apply cvsecs_unmatched_text. intros (pre & r & E & Hm).
  apply match_at_two_colons in Hm.
  rewrite <- occurrences_add_fraction, E, occurrences_app in Hc.
  revert Hc Hm. generalize (occurrences ":" pre), (occurrences ":" r).
  intros n1 n2 Hc Hm. lia.
Qed.

Lemma cvsecs_needs_two_colons_witness :
  cvsecs (PyStr (str "01:33.5")) = Raise IndexError.
Proof.
  apply (cvsecs_needs_two_colons (str "01:33.5")). vm_compute. lia.
Defined.

(** A text that is exactly a timecode, with any of the three separators of
    the pattern: the result is what the code does with its four fields. *)
Lemma cvsecs_whole_timecode : forall H M S sep F,
    all_digits H = true -> all_digits M = true -> all_digits S = true ->
    all_digits F = true -> is_sep sep = true ->
    cvsecs (PyStr (timecode H M S sep F)) = returned (fields_outcome H M S F).
Proof.
  intros H M S sep F HH HM HS HF Hsep. cbn [cvsecs is_string].
  unfold returned. f_equal.
  apply (cvsecs_str_first_match _ H M S sep F).
  unfold add_fraction.
  destruct (negb (contains "," _) && negb (contains "." _)).
  - exists [], (str ".0"). repeat split; auto.
    intros pre' r _ Hlen. simpl in Hlen. lia.
  - exists [], []. rewrite app_nil_r. repeat split; auto.
    intros pre' r _ Hlen. simpl in Hlen. lia.
Qed.

(** Only the first match counts: whatever surrounds it, and whatever other
    timecodes follow it, [cvsecs] does on the text what it does on the first
    match alone (the same value, or the same exception). *)
Theorem cvsecs_first_match_alone : forall s H M S sep F,
    first_match is_sep (add_fraction s) H M S sep F ->
    cvsecs (PyStr s) = cvsecs (PyStr (timecode H M S sep F)).
Proof.
  intros s H M S sep F Hm.
  pose proof Hm as (pre & rest & _ & HH & HM & HS & HF & Hsep & _).
  rewrite cvsecs_whole_timecode by assumption.
  cbn [cvsecs is_string]. unfold returned. f_equal.
  now apply (cvsecs_str_first_match s H M S sep F).
Qed.

Lemma cvsecs_first_match_alone_witness :
  cvsecs (PyStr (str "at 01:02:03.5, then 04:05:06.7"))
  = cvsecs (PyStr (str "01:02:03.5")).
Proof.
  apply (cvsecs_first_match_alone (str "at 01:02:03.5, then 04:05:06.7")
           (str "01") (str "02") (str "03") "."%char (str "5")).
  exists (str "at "), (str ", then 04:05:06.7").
  repeat split; try reflexivity.
  intros pre' r E Hlen Hm. apply match_at_starts_with_digit in Hm.
  cbv [str list_ascii_of_string add_fraction] in E. vm_compute in E.
  do 3 (destruct pre' as [|? pre']; cbn [app] in E;
        [subst r; vm_compute in Hm; discriminate | injection E as <- E]).
  simpl in Hlen. lia.
Defined.

(** The hour, minute and second fields count only through the total
    [3600*H + 60*M + S], and the separator does not count at all: two
    timecodes with the same total and the same fraction digits, whose hour,
    minute and second fields have at most 4300 digits each, give the same
    outcome (so ['00:61:00.5'] is ['01:01:00,5'], and leading zeros in these
    fields change nothing). *)
Theorem cvsecs_total_only : forall H M S sep F H' M' S' sep',
    all_digits H = true -> all_digits M = true -> all_digits S = true ->
    all_digits H' = true -> all_digits M' = true -> all_digits S' = true ->
    all_digits F = true -> is_sep sep = true -> is_sep sep' = true ->
    short_field H -> short_field M -> short_field S ->
    short_field H' -> short_field M' -> short_field S' ->
    whole_seconds H M S = whole_seconds H' M' S' ->
    cvsecs (PyStr (timecode H M S sep F))
    = cvsecs (PyStr (timecode H' M' S' sep' F)).
Proof.
  intros H M S sep F H' M' S' sep' HH HM HS HH' HM' HS' HF Hsep Hsep'
         SH SM SS SH' SM' SS' Hsum.
  rewrite !cvsecs_whole_timecode by assumption.
  rewrite !fields_outcome_short by assumption.
  unfold seconds_of_fields. unfold whole_seconds in Hsum. now rewrite Hsum.
Qed.

Lemma cvsecs_total_only_witness :
  cvsecs (PyStr (str "00:61:00.5")) = cvsecs (PyStr (str "01:01:00,5")).
Proof.
  apply (cvsecs_total_only (str "00") (str "61") (str "00") "."%char (str "5")
           (str "01") (str "01") (str "00") ","%char);
    try reflexivity; unfold short_field, int_max_str_digits; simpl; lia.
Defined.

Lemma int_to_float_shape : forall z f,
    0 <= z -> int_to_float z = Ok f ->
    f = S754_zero false \/ exists m e, f = S754_finite false m e.
Proof.
  intros [|p|p] f Hz E; [inversion E; now left | | lia].
  unfold int_to_float, round_int, binary_normalize, binary_round in E.
  destruct (shl_align p 0 _) as [mz ez].
  pose proof (binary_round_aux_sign false (Zpos mz) ez loc_Exact
                ltac:(lia)) as Hs.
  destruct (binary_round_aux prec emax false (Zpos mz) ez loc_Exact)
    as [s|s| |s m e]; try discriminate; try contradiction;
    inversion E; subst; eauto.
Qed.

Lemma contains_digits : forall c g,
    is_digit c = false -> forallb is_digit g = true -> contains c g = false.
Proof.
  intros c g Hc. induction g as [|a g IH]; intros Hg; [reflexivity|].
  cbn [forallb] in Hg. apply andb_true_iff in Hg as [Ha Hg].
  cbn [contains existsb]. fold (contains c g). rewrite (IH Hg), orb_false_r.
  destruct (Ascii.eqb c a) eqn:E; [|reflexivity].
  apply Ascii.eqb_eq in E. subst. congruence.
Qed.

Lemma add_fraction_bare : forall H M S,
    all_digits H = true -> all_digits M = true -> all_digits S = true ->
    add_fraction (bare_timecode H M S) = timecode H M S "." (str "0").
Proof.
  intros H M S HH HM HS.
  apply all_digits_inv in HH as [_ HH], HM as [_ HM], HS as [_ HS].
  assert (forall c, is_digit c = false -> Ascii.eqb c ":" = false ->
                    contains c (bare_timecode H M S) = false) as Hc.
  { intros c Hd Hcolon. unfold bare_timecode, contains.
    repeat (rewrite existsb_app; cbn [existsb]). rewrite Hcolon.
    fold (contains c H) (contains c M) (contains c S).
    now rewrite !contains_digits. }
  unfold add_fraction. rewrite !Hc by reflexivity. cbn [negb andb].
  unfold bare_timecode, timecode.
  repeat (rewrite <- app_assoc; cbn [app]). reflexivity.
Qed.

(** A timecode without a fraction, [H:M:S], whose fields have at most
    4300 digits each, gives exactly the float that the total number of
    seconds converts to (and [OverflowError] when the total does not fit a
    float). *)
Theorem cvsecs_bare_timecode : forall H M S,
    all_digits H = true -> all_digits M = true -> all_digits S = true ->
    short_field H -> short_field M -> short_field S ->
    cvsecs (PyStr (bare_timecode H M S))
    = (f <- int_to_float (whole_seconds H M S) ;; Ok (PyNum (PyFloat f))).
Proof.
  intros H M S HH HM HS SH SM SS. cbn [cvsecs is_string].
  rewrite (cvsecs_str_first_match _ H M S "."%char (str "0")).
  - rewrite fields_outcome_short by assumption. unfold seconds_of_fields.
    change (float_truediv (round_int (value (str "0")))
              (PyInt (10 ^ Z.of_nat (List.length (str "0")))))
      with (float_truediv (S754_zero false) (PyInt 10)).
    assert (float_truediv (S754_zero false) (PyInt 10)
            = Ok (PyFloat (S754_zero false))) as -> by (vm_compute; reflexivity).
    cbn [bind]. unfold py_add, as_float. fold (whole_seconds H M S).
    destruct (int_to_float (whole_seconds H M S)) as [f|e] eqn:Ei;
      cbn [bind]; [|reflexivity].
    apply int_to_float_shape in Ei as [->|(m & e & ->)]; [reflexivity..|].
    pose proof (value_nonneg H HH). pose proof (value_nonneg M HM).
    pose proof (value_nonneg S HS). unfold whole_seconds. lia.
  - rewrite add_fraction_bare by assumption.
    exists [], []. rewrite app_nil_r. repeat split; auto.
    intros pre' r _ Hlen. simpl in Hlen. lia.
Qed.

Lemma cvsecs_bare_timecode_witness :
  cvsecs (PyStr (str "01:01:33")) = Ok (PyNum (PyFloat (lit 3693.0))).
Proof.
  apply (cvsecs_bare_timecode (str "01") (str "01") (str "33"));
    try reflexivity; unfold short_field, int_max_str_digits; simpl; lia.
Defined.

(** * Further properties of subprocess_call *)

Lemma running_line_differs : forall cmd,
    running_line cmd <> success_line /\ running_line cmd <> error_line.
Proof. intros cmd. split; intros E; cbv in E; discriminate. Qed.

(** What is written. The console only grows, by at most two texts; nothing
    is written when both flags are off; with [verbose] the first text names
    the command; the success text is written exactly when [verbose] is on
    and the child exited with code 0, and the error text exactly when
    [errorprint] is on and the code is not 0. *)
Theorem subprocess_call_console : forall h cmd verbose errorprint out,
    exists written,
      fst (subprocess_call h cmd verbose errorprint out) = out ++ written /\
      (List.length written <= 2)%nat /\
      (verbose = false -> errorprint = false -> written = []) /\
      (verbose = true -> hd_error written = Some (running_line cmd)) /\
      (In success_line written <->
       verbose = true /\ returncode (child h cmd) = 0) /\
      (In error_line written <->
       errorprint = true /\ returncode (child h cmd) <> 0).
Proof.
  intros h cmd verbose errorprint out.
  destruct (running_line_differs cmd) as [D1 D2].
  assert (success_line <> error_line) as D3 by (intros E; cbv in E; discriminate).
  unfold subprocess_call. fold (child h cmd). fold (running_line cmd).
  fold error_line. fold success_line.
  unfold verbose_print, sys_write_flush.
  destruct (returncode (child h cmd) =? 0) eqn:Erc; cbn [negb fst];
    [apply Z.eqb_eq in Erc | apply Z.eqb_neq in Erc];
    destruct verbose, errorprint;
    match goal with
    | |- exists w, (?o ++ ?a) ++ ?b = _ /\ _ =>
        exists (a ++ b); rewrite <- app_assoc
    | |- exists w, ?o ++ ?a = _ /\ _ => exists a
    | |- exists w, ?o = _ /\ _ => exists []; rewrite app_nil_r
    end;
    (split; [reflexivity|]); cbn [app List.length hd_error In];
    repeat split; try lia; try discriminate; try reflexivity; try tauto;
    intuition (try congruence; try discriminate).
Qed.

(** A child that fails after writing plain ASCII to its error stream: the
    [IOError] carries these characters one for one. *)
Theorem subprocess_call_ascii_message : forall h cmd verbose errorprint out,
    returncode (child h cmd) <> 0 ->
    forallb (fun x => (Byte.to_N x <? 128)%N) (err (child h cmd)) = true ->
    snd (subprocess_call h cmd verbose errorprint out)
    = Raise (IOError (map Byte.to_N (err (child h cmd)))).
Proof.
  intros h cmd verbose errorprint out Hrc Hascii.
  unfold subprocess_call. fold (child h cmd).
  apply Z.eqb_neq in Hrc. rewrite Hrc. cbn [negb snd].
  now rewrite decode_utf8_ascii.
Qed.

Lemma subprocess_call_ascii_message_witness :
  snd (subprocess_call (host_exiting 1 ["b"; "o"; "o"; "m"]%byte)
         ["ffmpeg"%string] false false [])
  = Raise (IOError [98; 111; 111; 109]%N).
Proof.
  apply (subprocess_call_ascii_message
           (host_exiting 1 ["b"; "o"; "o"; "m"]%byte) ["ffmpeg"%string]
           false false []); [discriminate | reflexivity].
Defined.

(** * Further properties of find_extension *)

Lemma find_extension_in_outcome : forall items c,
    find_extension_in items c = Raise ValueError \/
    exists ext, find_extension_in items c = Ok ext.
Proof.
  induction items as [|[ext i] items IH]; intros c; simpl; [now left|].
  destruct (has_codec c i); [right; eauto | apply IH].
Qed.

(** The lookup inverts the registry: in whatever order the registry is
    iterated, [find_extension] returns an extension exactly when the codec
    is in the codec list of that extension. Every listed codec leads back to
    its own extension, and an extension without a codec list (['avi'],
    ['mov'], the image formats) is never returned. *)
Theorem find_extension_inverts_registry : forall items c ext,
    Permutation extensions_dict items ->
    (find_extension_in items c = Ok ext <->
     exists i l, In (ext, i) extensions_dict /\ codec i = Some l /\ In c l).
Proof.
  intros items c ext P. rewrite (find_extension_any_order items c P).
  unfold find_extension. split.
  - intros E. apply find_extension_in_first in E as (l1 & i & l2 & E & Hi & _).
    apply has_codec_iff in Hi as (l & Hl & Hc).
    exists i, l. repeat split; auto. rewrite E. apply in_elt.
  - intros (i & l & Hin & Hl & Hc).
    assert (has_codec c i = true) as Hi by (apply has_codec_iff; eauto).
    destruct (find_extension_in_outcome extensions_dict c) as [E|(ext' & E)].
    + pose proof (proj1 (find_extension_in_none _ _) E (ext, i) Hin) as Hf.
      simpl in Hf. congruence.
    + rewrite E. f_equal.
      apply find_extension_in_first in E as (l1 & i' & l2 & E & Hi' & _).
      assert (In (ext', i') extensions_dict) as Hin'
          by (rewrite E; apply in_elt).
      pose proof (extensions_dict_codecs_disjoint c (ext', i') (ext, i)
                    Hin' Hin Hi' Hi) as Eq.
      now inversion Eq.
Qed.

Lemma find_extension_inverts_registry_witness :
  find_extension_in (rev extensions_dict) "pcm_s32le" = Ok "wav"%string <->
  exists i l, In ("wav"%string, i) extensions_dict /\ codec i = Some l /\
              In "pcm_s32le"%string l.
Proof.
  apply (find_extension_inverts_registry (rev extensions_dict) "pcm_s32le" "wav"
           (Permutation_rev _)).
Defined.

(** * The range in which cvsecs returns *)

(** For a text that is exactly a timecode whose hour, minute and second
    fields have at most 4300 digits each: [cvsecs] returns a float when the
    fraction has at most 308 digits and the total of the other fields is
    below [2^1023]; it raises [OverflowError] when the fraction has more
    than 308 digits or the total is [2^1024] or more. *)
Theorem cvsecs_float_range : forall H M S sep F,
    all_digits H = true -> all_digits M = true -> all_digits S = true ->
    all_digits F = true -> is_sep sep = true ->
    short_field H -> short_field M -> short_field S ->
    ((List.length F <= 308)%nat -> whole_seconds H M S < 2 ^ 1023 ->
     cvsecs (PyStr (timecode H M S sep F))
     = Ok (PyNum (PyFloat (seconds_float (round_int (whole_seconds H M S)) F))))
    /\
    ((309 <= List.length F)%nat \/ 2 ^ 1024 <= whole_seconds H M S ->
     cvsecs (PyStr (timecode H M S sep F)) = Raise OverflowError).
Proof.
  intros H M S sep F HH HM HS HF Hsep SH SM SS.
  rewrite cvsecs_whole_timecode by assumption.
  rewrite fields_outcome_short by assumption.
  pose proof (value_nonneg H HH). pose proof (value_nonneg M HM).
  pose proof (value_nonneg S HS).
  assert (0 <= whole_seconds H M S) as Hnn by (unfold whole_seconds; lia).
  split.
  - intros HlF Hlt.
    rewrite (seconds_of_fields_value H M S F (round_int (whole_seconds H M S)));
      [reflexivity | exact HlF |].
    apply int_to_float_converts. split; assumption.
  - intros [HlF|Hge].
    + now rewrite seconds_of_fields_overflow.
    + destruct (Nat.le_gt_cases (List.length F) 308) as [HlF|HlF];
        [|now rewrite seconds_of_fields_overflow].
      unfold seconds_of_fields, float_truediv, as_float, int_to_float at 1.
      destruct (pow10_converts _ HlF) as (s & m & e & ->).
      cbn [bind is_zero]. unfold py_add, as_float.
      fold (whole_seconds H M S).
      now rewrite (int_to_float_overflows _ Hge).
Qed.

Lemma cvsecs_float_range_witness :
  cvsecs (PyStr (str "01:01:33.045")) = Ok (PyNum (PyFloat (lit 3693.045))).
Proof.
  apply (proj1 (cvsecs_float_range (str "01") (str "01") (str "33") "."%char
                  (str "045") eq_refl eq_refl eq_refl eq_refl eq_refl
                  ltac:(unfold short_field, int_max_str_digits; simpl; lia)
                  ltac:(unfold short_field, int_max_str_digits; simpl; lia)
                  ltac:(unfold short_field, int_max_str_digits; simpl; lia))).
  - simpl. lia.
  - vm_compute. reflexivity.
Defined.
